(** * Query construction and cursor pagination of the ScyllaDB web client

  A shallow embedding of the data-explorer logic of
  [scylla-client/src/App.tsx]: the WHERE-clause builder of
  [fetchTableData], the page-token history of [handleNextPage] and
  [handlePreviousPage], the reset paths, and the client-side sort of
  [getSortedTableData].

  A JavaScript string is modelled as a Rocq [string] whose characters
  are the code units below 256; numbers that the component keeps in its
  state ([pageSize], [queryLimit], row counts) are integers and are
  modelled in [Z]. *)

From Stdlib Require Import ZArith QArith Qround Ascii Bool Sorted.
From Stdlib Require Import DecimalString DecimalPos Lia.
From stdpp Require Import base list strings gmap.

Local Open Scope Z_scope.
Local Open Scope stdpp_scope.

#[local] Arguments String.append !_ _ : simpl nomatch.
#[local] Set Warnings "-register-all".

(** ** Strings *)

Module JsString.

(** Truthiness of a string: [Boolean(s)] is false exactly for [""]. *)
Definition truthy (s : string) : bool :=
  match s with
  | "" => false
  | String _ _ => true
  end.

(** Truthiness of a [string | null] value. *)
Definition truthy_opt (o : option string) : bool :=
  match o with
  | Some s => truthy s
  | None => false
  end.

(** [o || ''] on a [string | null] value. *)
Definition or_empty (o : option string) : string :=
  match o with
  | Some s => if truthy s then s else ""
  | None => ""
  end.

(** [s || null] on a [string | undefined] value. *)
Definition or_null (o : option string) : option string :=
  match o with
  | Some s => if truthy s then Some s else None
  | None => None
  end.

(** The white space and line terminator code units below 256 that
    [String.prototype.trim] strips: TAB, LF, VT, FF, CR, SP, NBSP. *)
Definition isWhiteSpace (c : ascii) : bool :=
  match c with
  | "009" | "010" | "011" | "012" | "013" | " " | "160" => true
  | _ => false
  end%char.

Fixpoint trimStart (s : string) : string :=
  match s with
  | "" => ""
  | String c s' => if isWhiteSpace c then trimStart s' else s
  end.

Fixpoint trimEnd (s : string) : string :=
  match s with
  | "" => ""
  | String c s' =>
      match trimEnd s' with
      | "" => if isWhiteSpace c then "" else String c ""
      | r => String c r
      end
  end.

Definition trim (s : string) : string := trimEnd (trimStart s).

(** A current page token as the component holds it: [null] on the first
    page, a non-empty string after it. *)
Definition plainToken (c : option string) : Prop :=
  match c with
  | None => True
  | Some t => t <> ""
  end.

(** [s.includes(c)] for a single character. *)
Fixpoint includesChar (c : ascii) (s : string) : bool :=
  match s with
  | "" => false
  | String d s' => if Ascii.eqb c d then true else includesChar c s'
  end.

End JsString.

(** ** Regular expressions

  The pattern literal of [fetchTableData] is anchored at both ends and
  carries no flag, so [RegExp.prototype.test] decides whether the whole
  subject belongs to the language of the pattern.  The matcher below
  decides that by derivatives. *)

Module Regex.

Inductive regex : Type :=
| Void
| Eps
| Chr (c : ascii)
| Digit
| Seq (r1 r2 : regex)
| Alt (r1 r2 : regex)
| Star (r : regex).

(** [r?] and [r+]. *)
Definition Opt (r : regex) : regex := Alt r Eps.
Definition Plus (r : regex) : regex := Seq r (Star r).

(** [\d] without the unicode flag: the ten ASCII digits. *)
Definition isDigit (c : ascii) : bool :=
  match c with
  | "0" | "1" | "2" | "3" | "4" | "5" | "6" | "7" | "8" | "9" => true
  | _ => false
  end%char.

Inductive matches : regex -> string -> Prop :=
| m_eps : matches Eps ""
| m_chr c : matches (Chr c) (String c "")
| m_digit c : isDigit c = true -> matches Digit (String c "")
| m_seq r1 r2 s1 s2 :
    matches r1 s1 -> matches r2 s2 -> matches (Seq r1 r2) (s1 +:+ s2)
| m_alt_l r1 r2 s : matches r1 s -> matches (Alt r1 r2) s
| m_alt_r r1 r2 s : matches r2 s -> matches (Alt r1 r2) s
| m_star_nil r : matches (Star r) ""
| m_star_app r s1 s2 :
    matches r s1 -> matches (Star r) s2 -> matches (Star r) (s1 +:+ s2).

Fixpoint nullable (r : regex) : bool :=
  match r with
  | Void => false
  | Eps => true
  | Chr _ => false
  | Digit => false
  | Seq r1 r2 => nullable r1 && nullable r2
  | Alt r1 r2 => nullable r1 || nullable r2
  | Star _ => true
  end.

Fixpoint deriv (a : ascii) (r : regex) : regex :=
  match r with
  | Void => Void
  | Eps => Void
  | Chr c => if Ascii.eqb a c then Eps else Void
  | Digit => if isDigit a then Eps else Void
  | Seq r1 r2 =>
      if nullable r1
      then Alt (Seq (deriv a r1) r2) (deriv a r2)
      else Seq (deriv a r1) r2
  | Alt r1 r2 => Alt (deriv a r1) (deriv a r2)
  | Star r1 => Seq (deriv a r1) (Star r1)
  end.

(** [/^r$/.test(s)] *)
Fixpoint test (r : regex) (s : string) : bool :=
  match s with
  | "" => nullable r
  | String a s' => test (deriv a r) s'
  end.

End Regex.

(** ** The WHERE-clause builder of [fetchTableData] *)

Module Filter.
Import JsString Regex.

(** [/^-?\d+(\.\d+)?$/] *)
Definition numberPattern : regex :=
  Seq (Opt (Chr "-"))
      (Seq (Plus Digit) (Opt (Seq (Chr ".") (Plus Digit)))).

(** [const isNumber = /^-?\d+(\.\d+)?$/.test(filterValue.trim())] *)
Definition isNumber (filterValue : string) : bool :=
  test numberPattern (trim filterValue).

(** [const quotedValue = isNumber ? filterValue : `'${filterValue}'`] *)
Definition quotedValue (filterValue : string) : string :=
  if isNumber filterValue then filterValue
  else "'" +:+ filterValue +:+ "'".

(** The two branches on [filterOperator] that assign [whereClause]. *)
Definition buildWhereClause
    (filterColumn filterOperator filterValue : string) : string :=
  if String.eqb filterOperator "CONTAINS"
  then filterColumn +:+ " LIKE '%" +:+ filterValue +:+ "%'"
  else filterColumn +:+ " " +:+ filterOperator +:+ " "
       +:+ quotedValue filterValue.

End Filter.

(** ** The reading of the filter rules in the specification

    These definitions follow the words of the specification, not the
    code, and are what the builder is compared with. *)

Module FilterSpec.
Import Regex.

Fixpoint allDigits (s : string) : bool :=
  match s with
  | "" => true
  | String c s' => isDigit c && allDigits s'
  end.

(** A non-empty run of digits. *)
Definition digits (s : string) : Prop := s <> "" /\ allDigits s = true.

(** "optional leading minus, digits, optional decimal point and digits" *)
Definition numericGrammar (s : string) : Prop :=
  exists sign int frac : string,
    s = sign +:+ int +:+ frac /\
    (sign = "" \/ sign = "-") /\
    digits int /\
    (frac = "" \/ exists d, frac = "." +:+ d /\ digits d).

(** "embedded quote characters escaped by doubling" *)
Fixpoint escapeQuotes (s : string) : string :=
  match s with
  | "" => ""
  | String c s' =>
      if Ascii.eqb c "'" then String "'" (String "'" (escapeQuotes s'))
      else String c (escapeQuotes s')
  end.

Definition sqlQuote (v : string) : string := "'" +:+ escapeQuotes v +:+ "'".

(** The body of a quoted literal, after its opening quote: a doubled quote
    stands for one quote, a single quote closes the literal and must end
    the text. *)
Fixpoint readBody (s : string) : option string :=
  match s with
  | "" => None
  | String c s' =>
      if Ascii.eqb c "'" then
        match s' with
        | "" => Some ""
        | String d s'' =>
            if Ascii.eqb d "'"
            then option_map (String "'") (readBody s'')
            else None
        end
      else option_map (String c) (readBody s')
  end.

(** Re-parsing a quoted literal back to the value it denotes. *)
Definition readQuoted (s : string) : option string :=
  match s with
  | String c s' => if Ascii.eqb c "'" then readBody s' else None
  | "" => None
  end.

(** The quoting rule as the specification words it, for one column,
    operator and value: Numeric exactly on the grammar and then unquoted,
    otherwise quoted with the quotes doubled, so that a value holding a
    quote is read back from its literal. *)
Definition quotesAsSpecified (column operator value : string) : Prop :=
  (Filter.isNumber value = true <-> numericGrammar value) /\
  (Filter.isNumber value = true ->
   Filter.buildWhereClause column operator value
   = column +:+ " " +:+ operator +:+ " " +:+ value) /\
  (Filter.isNumber value = false ->
   Filter.buildWhereClause column operator value
   = column +:+ " " +:+ operator +:+ " " +:+ sqlQuote value) /\
  (JsString.includesChar "'" value = true ->
   readQuoted (Filter.quotedValue value) = Some value).

End FilterSpec.

(** ** JavaScript values of a result row *)

Module Js.

(** A number: not-a-number, an infinity, or a finite value.  Finite values
    are kept as exact rationals; the comparator below is only ever read
    through its sign, on which exact and rounded subtraction agree. *)
Inductive JSNumber : Type :=
| NaN
| Infinity (negative : bool)
| Finite (q : Q).

Definition isNaN (n : JSNumber) : bool :=
  match n with NaN => true | _ => false end.

(** [x - y] *)
Definition sub (x y : JSNumber) : JSNumber :=
  match x, y with
  | NaN, _ | _, NaN => NaN
  | Infinity s1, Infinity s2 => if Bool.eqb s1 s2 then NaN else Infinity s1
  | Infinity s, Finite _ => Infinity s
  | Finite _, Infinity s => Infinity (negb s)
  | Finite a, Finite b => Finite (a - b)
  end.

(** [-x] *)
Definition neg (x : JSNumber) : JSNumber :=
  match x with
  | NaN => NaN
  | Infinity s => Infinity (negb s)
  | Finite a => Finite (- a)
  end.

(** [x < 0] *)
Definition ltZero (x : JSNumber) : bool :=
  match x with
  | NaN => false
  | Infinity s => s
  | Finite a => (Qnum a <? 0)%Z
  end.


(** A value decoded from the JSON body of a response. *)
Inductive JSValue : Type :=
| JNull
| JBool (b : bool)
| JNum (n : JSNumber)
| JStr (s : string)
| JArray (items : list JSValue)
| JObject (fields : list (string * JSValue)).

(** [interface TableRow { [key: string]: any }] *)
Abbreviation TableRow := (gmap string JSValue).

(** The conversions and the collation that the engine supplies:
    [Number(v)], [String(v)] and [s.localeCompare(t)]. *)
Class Runtime : Type := {
  ToNumber : JSValue -> JSNumber;
  ToString : JSValue -> string;
  localeCompare : string -> string -> JSNumber
}.

(** A property read [row[key]]; [None] is [undefined]. *)
Definition prop (row : TableRow) (key : string) : option JSValue :=
  row !! key.

(** [v == null]: true of [null] and of [undefined]. *)
Definition looseNull (v : option JSValue) : bool :=
  match v with
  | None => true
  | Some JNull => true
  | Some _ => false
  end.

(** [Number(v)] and [String(v)] on a property read. *)
Definition Number_ `{Runtime} (v : option JSValue) : JSNumber :=
  match v with
  | Some x => ToNumber x
  | None => NaN
  end.

Definition String_ `{Runtime} (v : option JSValue) : string :=
  match v with
  | Some x => ToString x
  | None => "undefined"
  end.

(** [Array.prototype.sort(comparefn)].  The language fixes that the sort
    is stable and reads [comparefn] through the sign of its result; the
    algorithm is the engine's.  It is modelled as the stable insertion
    sort: each element, in array order, goes before the first element of
    the sorted prefix that it compares below. *)
Section Sort.
Context {A : Type} (comparefn : A -> A -> JSNumber).

Fixpoint insertSorted (x : A) (l : list A) : list A :=
  match l with
  | [] => [x]
  | y :: l' =>
      if ltZero (comparefn x y) then x :: y :: l'
      else y :: insertSorted x l'
  end.

Definition sort (l : list A) : list A :=
  fold_left (fun acc x => insertSorted x acc) l [].

(** No element stands before one that it compares above. *)
Definition ordered : list A -> Prop :=
  StronglySorted (fun x y => ltZero (comparefn y x) = false).

End Sort.

End Js.

(** ** Requests and responses of the explorer endpoints *)

Module Http.
Import Js.

(** [interface TableSchema] *)
Record TableSchema : Type := {
  keyspace : string;
  table : string;
  columns : list (string * string * string);
  partition_keys : list string;
  clustering_keys : list string
}.

(** [interface PaginatedData] *)
Record PaginatedData : Type := {
  rows : list TableRow;
  page_size : Z;
  has_more : bool;
  next_page_state : option string;
  count : Z
}.

(** A value stored under a key of [params] or [countParams]. *)
Inductive ParamValue : Type :=
| PUndefined
| PNum (n : Z)
| PStr (s : string)
| PBool (b : bool).

(** [const params: any] and [const countParams: any]. *)
Abbreviation Params := (gmap string ParamValue).

(** The three requests that one call of [fetchTableData] issues together:
    the schema of [keyspace].[table], its rows with [params], and its
    count with [countParams]. *)
Record Requests : Type := {
  req_keyspace : string;
  req_table : string;
  params : Params;
  countParams : Params
}.

(** The bodies of the three responses. *)
Record Responses : Type := {
  schemaRes : TableSchema;
  rowsRes : PaginatedData;
  estimated_count : Z
}.

(** How [Promise.all] settles: all three bodies, or the message of the
    first failure. *)
Inductive Outcome : Type :=
| Resolved (r : Responses)
| Rejected (message : string).

End Http.

(** ** The state of the [App] component and its handlers

    A handler runs inside the closure of one render: every state variable
    it reads has the value of that render, whatever setter it has already
    called.  [fetchTableData] therefore takes the rendered state [env],
    which it reads, apart from the pending state, which its setters
    update.  The state of the login forms, the dashboard, the query box,
    the row selection and the row editor plays no part in what follows
    and is left out. *)

Module App.
Import JsString Js Http.

Inductive SortDirection : Type := ASC | DESC.

Record State : Type := {
  selectedTable : option TableSchema;
  tableData : option PaginatedData;
  pageSize : Z;
  currentPageState : option string;
  pageHistory : list string;
  rowCount : option Z;
  loading : bool;
  error : option string;
  filterColumn : string;
  filterOperator : string;
  filterValue : string;
  queryLimit : Z;
  sortColumn : string;
  sortDirection : SortDirection
}.

(** The state of the first render. *)
Definition initial : State := {|
  selectedTable := None;
  tableData := None;
  pageSize := 50;
  currentPageState := None;
  pageHistory := [];
  rowCount := None;
  loading := false;
  error := None;
  filterColumn := "";
  filterOperator := "=";
  filterValue := "";
  queryLimit := 1000;
  sortColumn := "";
  sortDirection := ASC
|}.

Definition setSelectedTable (v : option TableSchema) (st : State) : State :=
  {| selectedTable := v; tableData := tableData st; pageSize := pageSize st;
     currentPageState := currentPageState st; pageHistory := pageHistory st;
     rowCount := rowCount st; loading := loading st; error := error st;
     filterColumn := filterColumn st; filterOperator := filterOperator st;
     filterValue := filterValue st; queryLimit := queryLimit st;
     sortColumn := sortColumn st; sortDirection := sortDirection st |}.

Definition setTableData (v : option PaginatedData) (st : State) : State :=
  {| selectedTable := selectedTable st; tableData := v; pageSize := pageSize st;
     currentPageState := currentPageState st; pageHistory := pageHistory st;
     rowCount := rowCount st; loading := loading st; error := error st;
     filterColumn := filterColumn st; filterOperator := filterOperator st;
     filterValue := filterValue st; queryLimit := queryLimit st;
     sortColumn := sortColumn st; sortDirection := sortDirection st |}.

Definition setPageSize (v : Z) (st : State) : State :=
  {| selectedTable := selectedTable st; tableData := tableData st;
     pageSize := v;
     currentPageState := currentPageState st; pageHistory := pageHistory st;
     rowCount := rowCount st; loading := loading st; error := error st;
     filterColumn := filterColumn st; filterOperator := filterOperator st;
     filterValue := filterValue st; queryLimit := queryLimit st;
     sortColumn := sortColumn st; sortDirection := sortDirection st |}.

Definition setCurrentPageState (v : option string) (st : State) : State :=
  {| selectedTable := selectedTable st; tableData := tableData st;
     pageSize := pageSize st;
     currentPageState := v; pageHistory := pageHistory st;
     rowCount := rowCount st; loading := loading st; error := error st;
     filterColumn := filterColumn st; filterOperator := filterOperator st;
     filterValue := filterValue st; queryLimit := queryLimit st;
     sortColumn := sortColumn st; sortDirection := sortDirection st |}.

Definition setPageHistory (v : list string) (st : State) : State :=
  {| selectedTable := selectedTable st; tableData := tableData st;
     pageSize := pageSize st;
     currentPageState := currentPageState st; pageHistory := v;
     rowCount := rowCount st; loading := loading st; error := error st;
     filterColumn := filterColumn st; filterOperator := filterOperator st;
     filterValue := filterValue st; queryLimit := queryLimit st;
     sortColumn := sortColumn st; sortDirection := sortDirection st |}.

Definition setRowCount (v : option Z) (st : State) : State :=
  {| selectedTable := selectedTable st; tableData := tableData st;
     pageSize := pageSize st;
     currentPageState := currentPageState st; pageHistory := pageHistory st;
     rowCount := v; loading := loading st; error := error st;
     filterColumn := filterColumn st; filterOperator := filterOperator st;
     filterValue := filterValue st; queryLimit := queryLimit st;
     sortColumn := sortColumn st; sortDirection := sortDirection st |}.

Definition setLoading (v : bool) (st : State) : State :=
  {| selectedTable := selectedTable st; tableData := tableData st;
     pageSize := pageSize st;
     currentPageState := currentPageState st; pageHistory := pageHistory st;
     rowCount := rowCount st; loading := v; error := error st;
     filterColumn := filterColumn st; filterOperator := filterOperator st;
     filterValue := filterValue st; queryLimit := queryLimit st;
     sortColumn := sortColumn st; sortDirection := sortDirection st |}.

Definition setError (v : option string) (st : State) : State :=
  {| selectedTable := selectedTable st; tableData := tableData st;
     pageSize := pageSize st;
     currentPageState := currentPageState st; pageHistory := pageHistory st;
     rowCount := rowCount st; loading := loading st; error := v;
     filterColumn := filterColumn st; filterOperator := filterOperator st;
     filterValue := filterValue st; queryLimit := queryLimit st;
     sortColumn := sortColumn st; sortDirection := sortDirection st |}.

Definition setFilterColumn (v : string) (st : State) : State :=
  {| selectedTable := selectedTable st; tableData := tableData st;
     pageSize := pageSize st;
     currentPageState := currentPageState st; pageHistory := pageHistory st;
     rowCount := rowCount st; loading := loading st; error := error st;
     filterColumn := v; filterOperator := filterOperator st;
     filterValue := filterValue st; queryLimit := queryLimit st;
     sortColumn := sortColumn st; sortDirection := sortDirection st |}.

Definition setFilterOperator (v : string) (st : State) : State :=
  {| selectedTable := selectedTable st; tableData := tableData st;
     pageSize := pageSize st;
     currentPageState := currentPageState st; pageHistory := pageHistory st;
     rowCount := rowCount st; loading := loading st; error := error st;
     filterColumn := filterColumn st; filterOperator := v;
     filterValue := filterValue st; queryLimit := queryLimit st;
     sortColumn := sortColumn st; sortDirection := sortDirection st |}.

Definition setFilterValue (v : string) (st : State) : State :=
  {| selectedTable := selectedTable st; tableData := tableData st;
     pageSize := pageSize st;
     currentPageState := currentPageState st; pageHistory := pageHistory st;
     rowCount := rowCount st; loading := loading st; error := error st;
     filterColumn := filterColumn st; filterOperator := filterOperator st;
     filterValue := v; queryLimit := queryLimit st;
     sortColumn := sortColumn st; sortDirection := sortDirection st |}.

Definition setQueryLimit (v : Z) (st : State) : State :=
  {| selectedTable := selectedTable st; tableData := tableData st;
     pageSize := pageSize st;
     currentPageState := currentPageState st; pageHistory := pageHistory st;
     rowCount := rowCount st; loading := loading st; error := error st;
     filterColumn := filterColumn st; filterOperator := filterOperator st;
     filterValue := filterValue st; queryLimit := v;
     sortColumn := sortColumn st; sortDirection := sortDirection st |}.

Definition setSortColumn (v : string) (st : State) : State :=
  {| selectedTable := selectedTable st; tableData := tableData st;
     pageSize := pageSize st;
     currentPageState := currentPageState st; pageHistory := pageHistory st;
     rowCount := rowCount st; loading := loading st; error := error st;
     filterColumn := filterColumn st; filterOperator := filterOperator st;
     filterValue := filterValue st; queryLimit := queryLimit st;
     sortColumn := v; sortDirection := sortDirection st |}.

Definition setSortDirection (v : SortDirection) (st : State) : State :=
  {| selectedTable := selectedTable st; tableData := tableData st;
     pageSize := pageSize st;
     currentPageState := currentPageState st; pageHistory := pageHistory st;
     rowCount := rowCount st; loading := loading st; error := error st;
     filterColumn := filterColumn st; filterOperator := filterOperator st;
     filterValue := filterValue st; queryLimit := queryLimit st;
     sortColumn := sortColumn st; sortDirection := v |}.

(** *** [fetchTableData] *)

(** The guard [applyFilters && filterColumn && filterValue]. *)
Definition filterApplies (env : State) (applyFilters : bool) : bool :=
  applyFilters && truthy (filterColumn env) && truthy (filterValue env).

(** [whereClause] once the guarded block has run: [''] when it is
    skipped. *)
Definition whereClause (env : State) (applyFilters : bool) : string :=
  if filterApplies env applyFilters
  then Filter.buildWhereClause
         (filterColumn env) (filterOperator env) (filterValue env)
  else "".

(** [params] when the requests are issued. *)
Definition buildParams
    (env : State) (pageState : option string) (applyFilters : bool)
    : Params :=
  let params : Params :=
    {[ "page_size" := PNum (Z.min (pageSize env) (queryLimit env));
       "page_state" := match or_null pageState with
                       | Some t => PStr t
                       | None => PUndefined
                       end ]} in
  if filterApplies env applyFilters then
    let params :=
      if String.eqb (filterOperator env) "CONTAINS"
      then <["allow_filtering" := PBool true]> params
      else params in
    let params :=
      <["where_clause" := PStr (whereClause env applyFilters)]> params in
    <["allow_filtering" := PBool true]> params
  else params.

(** [countParams] when the requests are issued. *)
Definition buildCountParams (env : State) (applyFilters : bool) : Params :=
  let countParams : Params := ∅ in
  if truthy (whereClause env applyFilters) then
    let countParams :=
      <["where_clause" := PStr (whereClause env applyFilters)]> countParams in
    <["allow_filtering" := PBool true]> countParams
  else countParams.

Definition buildRequests
    (env : State) (keyspace table : string)
    (pageState : option string) (applyFilters : bool) : Requests :=
  {| req_keyspace := keyspace;
     req_table := table;
     params := buildParams env pageState applyFilters;
     countParams := buildCountParams env applyFilters |}.

(** The filter and sort reset at the end of the [try] block. *)
Definition resetFilters (st : State) : State :=
  setSortDirection ASC
    (setSortColumn ""
       (setFilterValue "" (setFilterOperator "=" (setFilterColumn "" st)))).

(** One call of [fetchTableData], from its first line to the end of its
    [finally] block, given how the three requests settle. *)
Definition fetchTableData
    (env : State) (keyspace table : string)
    (pageState : option string) (applyFilters : bool)
    (outcome : Outcome) (st : State) : Requests * State :=
  let st := setError None (setLoading true st) in
  let requests := buildRequests env keyspace table pageState applyFilters in
  let st :=
    match outcome with
    | Resolved r =>
        let st := setSelectedTable (Some (schemaRes r)) st in
        let st := setTableData (Some (rowsRes r)) st in
        let st := setRowCount (Some (estimated_count r)) st in
        let st := setCurrentPageState pageState st in
        if negb (truthy_opt pageState) && negb applyFilters
        then resetFilters st
        else st
    | Rejected message => setError (Some message) st
    end in
  (requests, setLoading false st).

(** What a handler leaves behind: the requests it issued, oldest first,
    and the next state. *)
Definition Step : Type := list Requests * State.

Definition fetched (r : Requests * State) : Step := ([r.1], r.2).

(** *** Page navigation *)

Definition handleNextPage (env : State) (outcome : Outcome) : Step :=
  match tableData env, selectedTable env with
  | Some data, Some selected =>
      if truthy_opt (next_page_state data) then
        let st :=
          setPageHistory
            (pageHistory env ++ [or_empty (currentPageState env)]) env in
        let hasFilters :=
          truthy (filterColumn env) && truthy (filterValue env) in
        fetched (fetchTableData env (keyspace selected) (table selected)
                   (next_page_state data) hasFilters outcome st)
      else ([], env)
  | _, _ => ([], env)
  end.

Definition handlePreviousPage (env : State) (outcome : Outcome) : Step :=
  match pageHistory env, selectedTable env with
  | _ :: _, Some selected =>
      let newHistory := removelast (pageHistory env) in
      let prevState := or_null (last (pageHistory env)) in
      let st := setPageHistory newHistory env in
      let hasFilters :=
        truthy (filterColumn env) && truthy (filterValue env) in
      fetched (fetchTableData env (keyspace selected) (table selected)
                 prevState hasFilters outcome st)
  | _, _ => ([], env)
  end.

(** A run of Next and Previous presses, each with the way its fetch
    settles: the states it passes through and the requests it issues. *)
Inductive Nav : Type := Next | Previous.

Definition navigate (ev : Nav) (env : State) (outcome : Outcome) : Step :=
  match ev with
  | Next => handleNextPage env outcome
  | Previous => handlePreviousPage env outcome
  end.

Fixpoint statesAfter (evs : list (Nav * Outcome)) (st : State) : list State :=
  match evs with
  | [] => []
  | (ev, outcome) :: evs' =>
      let st' := (navigate ev st outcome).2 in
      st' :: statesAfter evs' st'
  end.


(** The tokens that were current just before each press of a run. *)
Definition currentsBefore (st0 : State) (during : list State)
    : list (option string) :=
  map currentPageState (removelast (st0 :: during)).

(** [n] presses of one button, every fetch resolving. *)
Definition presses (ev : Nav) (rs : list Responses) : list (Nav * Outcome) :=
  map (fun r => (ev, Resolved r)) rs.

(** *** The events that change the query *)

Definition handlePageSizeChange
    (env : State) (newSize : Z) (outcome : Outcome) : Step :=
  let st := setPageHistory [] (setPageSize newSize env) in
  match selectedTable env with
  | Some selected =>
      fetched (fetchTableData env (keyspace selected) (table selected)
                 None false outcome st)
  | None => ([], st)
  end.

Definition applyServerSideFilters (env : State) (outcome : Outcome) : Step :=
  match selectedTable env with
  | Some selected =>
      let st := setPageHistory [] env in
      fetched (fetchTableData env (keyspace selected) (table selected)
                 None true outcome st)
  | None => ([], env)
  end.

Definition clearServerSideFilters (env : State) (outcome : Outcome) : Step :=
  let st := resetFilters env in
  match selectedTable env with
  | Some selected =>
      let st := setPageHistory [] st in
      fetched (fetchTableData env (keyspace selected) (table selected)
                 None false outcome st)
  | None => ([], st)
  end.

(** The [onClick] of a table button of the sidebar:
    [() => fetchTableData(keyspace, table)]. *)
Definition onTableClick
    (env : State) (keyspace table : string) (outcome : Outcome) : Step :=
  fetched (fetchTableData env keyspace table None false outcome env).

(** Two states hold the same filter. *)
Definition sameFilter (a b : State) : Prop :=
  filterColumn a = filterColumn b /\
  filterOperator a = filterOperator b /\
  filterValue a = filterValue b.

(** *** Client-side sort *)

Definition handleColumnSort (env : State) (columnName : string) : State :=
  if String.eqb (sortColumn env) columnName then
    setSortDirection
      (match sortDirection env with ASC => DESC | DESC => ASC end) env
  else setSortDirection ASC (setSortColumn columnName env).

(** The comparator handed to [sort] by [getSortedTableData]. *)
Definition compareRows `{Runtime}
    (sortColumn : string) (sortDirection : SortDirection)
    (a b : TableRow) : JSNumber :=
  let aVal := prop a sortColumn in
  let bVal := prop b sortColumn in
  if looseNull aVal && looseNull bVal then Finite 0
  else if looseNull aVal then Finite 1
  else if looseNull bVal then Finite (-1)
  else
    let aNum := Number_ aVal in
    let bNum := Number_ bVal in
    if negb (isNaN aNum) && negb (isNaN bNum) then
      match sortDirection with
      | ASC => sub aNum bNum
      | DESC => sub bNum aNum
      end
    else
      let comparison := localeCompare (String_ aVal) (String_ bVal) in
      match sortDirection with
      | ASC => comparison
      | DESC => neg comparison
      end.

(** The row has [null] or nothing in the column. *)
Definition nullish (column : string) (r : TableRow) : bool :=
  looseNull (prop r column).

Definition getSortedTableData `{Runtime} (env : State) : list TableRow :=
  match tableData env with
  | None => []
  | Some data =>
      if negb (truthy (sortColumn env)) then rows data
      else sort (compareRows (sortColumn env) (sortDirection env)) (rows data)
  end.

End App.

(** ** The count endpoint *)

Module CountEstimator.
Import Http.





End CountEstimator.

(** ** The claims of the specification that the code is compared with *)

Module Claimed.
Import JsString Http App.

(** "Retreat on an empty history fails with NoPriorPage": the press
    leaves an error for the user to see. *)
Definition surfacesNoPriorPage (env : State) (outcome : Outcome) : Prop :=
  exists e, error (handlePreviousPage env outcome).2 = Some e.

(** The inputs of one compilation, as the specification lists them: the
    keyspace and table, the filter, the page size and the page token. *)
Definition sameInputs (env1 env2 : State) : Prop :=
  sameFilter env1 env2 /\ pageSize env1 = pageSize env2.

(** "No dependence on any state outside those inputs." *)
Definition dependsOnInputsOnly : Prop :=
  forall (env1 env2 st1 st2 : State) (keyspace table : string)
         (pageState : option string) (applyFilters : bool)
         (o1 o2 : Outcome),
    sameInputs env1 env2 ->
    (fetchTableData env1 keyspace table pageState applyFilters o1 st1).1
    = (fetchTableData env2 keyspace table pageState applyFilters o2 st2).1.



End Claimed.

(** ** Sample data for the examples *)

Module Sample.
Import JsString Regex Js Http App.

Definition schema (name : string) : TableSchema :=
  {| keyspace := "shop";
     table := name;
     columns := [("id", "uuid", "partition_key"); ("name", "text", "regular");
                 ("score", "int", "regular")];
     partition_keys := ["id"];
     clustering_keys := [] |}.

Definition row (name : JSValue) (score : option JSValue) : TableRow :=
  let r : TableRow := {[ "name" := name ]} in
  match score with
  | Some v => <["score" := v]> r
  | None => r
  end.

Definition num (z : Z) : JSValue := JNum (Finite (inject_Z z)).

Definition someRows : list TableRow :=
  [ row (JStr "ann") (Some JNull);
    row (JStr "bob") (Some (num 7));
    row (JStr "cyd") None;
    row (JStr "dee") (Some (num 3)) ].

Definition page (next : option string) : PaginatedData :=
  {| rows := someRows;
     page_size := 50;
     has_more := JsString.truthy_opt next;
     next_page_state := next;
     count := 4 |}.

Definition response (name : string) (next : option string) : Responses :=
  {| schemaRes := schema name;
     rowsRes := page next;
     estimated_count := 120 |}.

(** The first page of [shop.users], reached by a click on the table. *)
Definition firstPage : State :=
  (onTableClick initial "shop" "users"
     (Resolved (response "users" (Some "tokA")))).2.

(** The third page of [shop.users], two presses of Next later. *)
Definition thirdPage : State :=
  List.last
    (statesAfter
       (presses Next [response "users" (Some "tokB");
                      response "users" (Some "tokC")])
       firstPage)
    firstPage.

Definition withFilter (column operator value : string) (st : State) : State :=
  setFilterValue value (setFilterOperator operator (setFilterColumn column st)).

(** A stand-in for the engine, exact on the values of the sample rows,
    which are [null], whole numbers and names.  Numbers convert to
    themselves, [true] and [false] to 1 and 0, the empty string to 0 and
    any other text or structure to NaN; whole numbers print in decimal;
    text orders by code unit. *)
#[local] Instance runtime : Runtime := {|
  ToNumber v :=
    match v with
    | JNull => Finite 0
    | JBool b => Finite (if b then 1 else 0)
    | JNum n => n
    | JStr "" => Finite 0
    | _ => NaN
    end;
  ToString v :=
    match v with
    | JStr s => s
    | JNull => "null"
    | JBool true => "true"
    | JBool false => "false"
    | JNum NaN => "NaN"
    | JNum (Infinity false) => "Infinity"
    | JNum (Infinity true) => "-Infinity"
    | JNum (Finite q) =>
        NilZero.string_of_int (Z.to_int (Qnum q / Zpos (Qden q)))
    | _ => "[object Object]"
    end;
  localeCompare s t :=
    match String.compare s t with
    | Lt => Finite (-1)
    | Eq => Finite 0
    | Gt => Finite 1
    end
|}.

End Sample.

(** ** What the explorer shows beside the rows *)

Module Display.
Import JsString Http App.

(** [s.includes(t)] *)
Fixpoint includes (t s : string) : bool :=
  String.prefix t s
  || match s with
     | "" => false
     | String _ s' => includes t s'
     end.

(** [s.endsWith(t)] for a single character. *)
Fixpoint endsWithChar (c : ascii) (s : string) : bool :=
  match s with
  | "" => false
  | String d "" => Ascii.eqb c d
  | String _ s' => endsWithChar c s'
  end.

(** A whole number inside a template literal: its decimal digits, with a
    minus sign when negative (the numbers of the component lie far below
    the 10^21 from which the engine switches to exponents). *)
Definition numberToString (n : Z) : string :=
  NilZero.string_of_int (Z.to_int n).

(** The text that [fetchTableData] hands to [setQuery] once the requests
    have resolved; [query_executed] is the field of that name in the rows
    response, when the server sends one. *)
Definition cqlQuery
    (env : State) (keyspace table : string) (query_executed : option string)
    : string :=
  let cqlQuery :=
    match or_null query_executed with
    | Some q => q
    | None => "SELECT * FROM " +:+ keyspace +:+ "." +:+ table
    end in
  let cqlQuery :=
    if negb (includes "LIMIT" cqlQuery)
    then cqlQuery +:+ " LIMIT "
         +:+ numberToString (Z.min (pageSize env) (queryLimit env))
    else cqlQuery in
  cqlQuery +:+ ";".

(** [pageHistory.length + 1], the page number of the indicator. *)
Definition pageNumber (env : State) : Z :=
  Z.of_nat (length (pageHistory env)) + 1.

(** [Math.ceil(rowCount / pageSize)], the page total of the indicator, for
    a page size other than 0 (the quotient of whole numbers of this size is
    exact enough for the rounding up to be that of the true quotient). *)
Definition totalPages (rowCount pageSize : Z) : option Z :=
  if pageSize =? 0 then None
  else Some (Qceiling (inject_Z rowCount / inject_Z pageSize)).

(** The page indicator, rendered only under [rowCount &&]: for a count
    that is neither [null] nor 0. *)
Definition pageIndicator (env : State) : option (Z * option Z) :=
  match rowCount env with
  | Some n =>
      if n =? 0 then None
      else Some (pageNumber env, totalPages n (pageSize env))
  | None => None
  end.

End Display.

(** ** The "Max results" input *)

Module Limit.
Import JsString App.

(** The value of a digit in a radix up to 36. *)
Definition digitValue (c : ascii) : option Z :=
  let n := Z.of_N (N_of_ascii c) in
  if (48 <=? n) && (n <=? 57) then Some (n - 48)
  else if (97 <=? n) && (n <=? 122) then Some (n - 87)
  else if (65 <=? n) && (n <=? 90) then Some (n - 55)
  else None.

(** The longest run of radix-[R] digits at the head of [s], read as a
    number on top of [acc]; [seen] tells whether a digit was read. *)
Fixpoint readDigits (R : Z) (s : string) (acc : Z) (seen : bool)
    : option Z :=
  let stop := if seen then Some acc else None in
  match s with
  | "" => stop
  | String c s' =>
      match digitValue c with
      | Some d =>
          if d <? R then readDigits R s' (acc * R + d) true else stop
      | None => stop
      end
  end.

(** [parseInt(s)] with no radix; [None] is NaN, and the two zeros are one.
    Leading white space is skipped, a sign is read, [0x] or [0X] selects
    radix 16, and the digits that follow are read up to the first
    character that is none.  The value read is exact; the engine rounds
    one above 2^53 to the nearest number it can hold. *)
Definition parseInt (s : string) : option Z :=
  let S := trimStart s in
  let (sign, S) :=
    match S with
    | String "-" S' => (-1, S')
    | String "+" S' => (1, S')
    | _ => (1, S)
    end in
  let (R, S) :=
    match S with
    | String "0" (String "x" S') => (16, S')
    | String "0" (String "X" S') => (16, S')
    | _ => (10, S)
    end in
  option_map (Z.mul sign) (readDigits R S 0 false).

(** The [onChange] of the input:
    [setQueryLimit(Math.max(1, parseInt(e.target.value) || 1000))]. *)
Definition onQueryLimitChange (value : string) (st : State) : State :=
  let parsed :=
    match parseInt value with
    | Some n => if n =? 0 then 1000 else n
    | None => 1000
    end in
  setQueryLimit (Z.max 1 parsed) st.

End Limit.

(** ** Row selection, deletion and editing

    The explorer state together with the state of the check boxes, the
    delete dialog and the edit form. *)

Module Editor.
Import JsString Js Http App.

(** What the engine adds to the values of the model: [===] on two
    property reads, which compares numbers and texts by value and arrays
    and objects by identity, and the message of the TypeError raised by a
    property read on [undefined] or [null]. *)
Class Engine : Type := {
  strictEquals : option JSValue -> option JSValue -> bool;
  typeErrorMessage : string
}.

(** An object built by [pk[key] = row[key]]: a key can hold
    [undefined], which is [None]. *)
Abbreviation KeyObject := (gmap string (option JSValue)).

(** A request on its way to the server. *)
Inductive Sent : Type :=
| Fetch (r : Requests)
| DeleteRows (keyspace table : string) (rows : list KeyObject)
| PutRow (keyspace table : string) (primary_key : KeyObject)
    (updates : TableRow).

(** How [axios.delete] and [axios.put] settle. *)
Inductive Settled : Type :=
| Fulfilled
| Failed (message : string).

(** [selectedRows] is a [Set<number>], which keeps its members in the
    order they were added: a list without repetition. *)
Record Full : Type := {
  app : State;
  selectedRows : list nat;
  editingRow : option (nat * option TableRow);
  editFormData : TableRow;
  showDeleteConfirm : bool
}.

Definition start : Full := {|
  app := initial;
  selectedRows := [];
  editingRow := None;
  editFormData := ∅;
  showDeleteConfirm := false
|}.

Definition setApp (v : State) (st : Full) : Full :=
  {| app := v; selectedRows := selectedRows st;
     editingRow := editingRow st; editFormData := editFormData st;
     showDeleteConfirm := showDeleteConfirm st |}.

Definition setSelectedRows (v : list nat) (st : Full) : Full :=
  {| app := app st; selectedRows := v;
     editingRow := editingRow st; editFormData := editFormData st;
     showDeleteConfirm := showDeleteConfirm st |}.

Definition setEditingRow (v : option (nat * option TableRow)) (st : Full)
    : Full :=
  {| app := app st; selectedRows := selectedRows st;
     editingRow := v; editFormData := editFormData st;
     showDeleteConfirm := showDeleteConfirm st |}.

Definition setEditFormData (v : TableRow) (st : Full) : Full :=
  {| app := app st; selectedRows := selectedRows st;
     editingRow := editingRow st; editFormData := v;
     showDeleteConfirm := showDeleteConfirm st |}.

Definition setShowDeleteConfirm (v : bool) (st : Full) : Full :=
  {| app := app st; selectedRows := selectedRows st;
     editingRow := editingRow st; editFormData := editFormData st;
     showDeleteConfirm := v |}.

(** [fetchTableData] with its [setSelectedRows(new Set())]. *)
Definition refetch
    (env : Full) (keyspace table : string) (pageState : option string)
    (applyFilters : bool) (outcome : Outcome) (st : Full)
    : list Sent * Full :=
  let st := setSelectedRows [] st in
  let r :=
    fetchTableData (app env) keyspace table pageState applyFilters outcome
      (app st) in
  ([Fetch r.1], setApp r.2 st).

(** A handler of the explorer, seen on the whole state: every fetch it
    makes empties the selection. *)
Definition lift (handler : State -> Step) (env : Full) : list Sent * Full :=
  let step := handler (app env) in
  (map Fetch step.1,
   setApp step.2
     (match step.1 with
      | [] => env
      | _ :: _ => setSelectedRows [] env
      end)).

(** *** Selection *)

Definition toggleRowSelection (env : Full) (index : nat) : Full :=
  let newSelected := selectedRows env in
  let newSelected :=
    if bool_decide (index ∈ newSelected)
    then List.filter (fun i => negb (Nat.eqb i index)) newSelected
    else newSelected ++ [index] in
  setSelectedRows newSelected env.

Definition toggleSelectAll (env : Full) : Full :=
  match tableData (app env) with
  | Some data =>
      if Nat.eqb (length (selectedRows env)) (length (rows data))
      then setSelectedRows [] env
      else setSelectedRows (seq 0 (length (rows data))) env
  | None => setSelectedRows [] env
  end.

(** *** Deletion

    A row is read as the map of the columns that the server sent: the
    names that a row object inherits are not among its properties. *)

(** [[...selectedTable.partition_keys, ...selectedTable.clustering_keys]] *)
Definition primaryKeys (selected : TableSchema) : list string :=
  partition_keys selected ++ clustering_keys selected.

(** [primaryKeys.forEach(key => { pk[key] = row[key]; })] on a fresh
    object; [None] when the row is [undefined] and a key is read from
    it, which throws. *)
Definition keyObject (keys : list string) (row : option TableRow)
    : option KeyObject :=
  match keys, row with
  | [], _ => Some ∅
  | _ :: _, None => None
  | _ :: _, Some r =>
      Some (fold_left (fun pk key => <[key := r !! key]> pk) keys ∅)
  end.

(** [deletePayload]; [None] when building it throws. *)
Definition deletePayload
    (data : option PaginatedData) (keys : list string) (selected : list nat)
    : option (list KeyObject) :=
  match data with
  | None => None
  | Some d => mapM (fun idx => keyObject keys (rows d !! idx)) selected
  end.

(** The [catch] and [finally] blocks of the two handlers below. *)
Definition caught (message : string) (st : Full) : Full :=
  setApp (setLoading false (setError (Some message) (app st))) st.

Definition deleteSelectedRows `{Engine}
    (env : Full) (settled : Settled) (outcome : Outcome)
    : list Sent * Full :=
  match selectedTable (app env), selectedRows env with
  | Some selected, _ :: _ =>
      let st :=
        setShowDeleteConfirm false
          (setApp (setError None (setLoading true (app env))) env) in
      match deletePayload (tableData (app env)) (primaryKeys selected)
              (selectedRows env) with
      | None => ([], caught typeErrorMessage st)
      | Some payload =>
          let sent :=
            DeleteRows (keyspace selected) (table selected) payload in
          match settled with
          | Failed message => ([sent], caught message st)
          | Fulfilled =>
              let st := setSelectedRows [] st in
              let r :=
                refetch env (keyspace selected) (table selected)
                  (currentPageState (app env)) false outcome st in
              (sent :: r.1, setApp (setLoading false (app r.2)) r.2)
          end
      end
  | _, _ => ([], env)
  end.

(** *** Editing *)

Definition startEditRow `{Runtime} (env : Full) (index : nat) : Full :=
  let row := getSortedTableData (app env) !! index in
  setEditFormData (default ∅ row) (setEditingRow (Some (index, row)) env).

Definition cancelEdit (env : Full) : Full :=
  setEditFormData ∅ (setEditingRow None env).

Definition updateEditFormField (env : Full) (field value : string) : Full :=
  setEditFormData (<[field := JStr value]> (editFormData env)) env.

(** The field is sent: it is no primary key and its value in the form is
    not the one of the row. *)
Definition changed `{Engine}
    (keys : list string) (data : TableRow) (field : string * JSValue)
    : bool :=
  negb (bool_decide (field.1 ∈ keys))
  && negb (strictEquals (Some field.2) (data !! field.1)).

(** [updates]; [None] when the row is [undefined] and a field of the
    form is compared with it, which throws. *)
Definition buildUpdates `{Engine}
    (keys : list string) (form : TableRow) (data : option TableRow)
    : option TableRow :=
  match data with
  | Some d => Some (filter (fun field => changed keys d field = true) form)
  | None =>
      if bool_decide (map_Forall (fun field _ => field ∈ keys) form)
      then Some ∅
      else None
  end.

Definition saveEditRow `{Engine}
    (env : Full) (settled : Settled) (outcome : Outcome)
    : list Sent * Full :=
  match selectedTable (app env), editingRow env with
  | Some selected, Some (index, data) =>
      let st := setApp (setError None (setLoading true (app env))) env in
      match keyObject (primaryKeys selected) data,
            buildUpdates (primaryKeys selected) (editFormData env) data with
      | Some pk, Some updates =>
          if Nat.eqb (size updates) 0
          then ([], caught "No changes detected" st)
          else
            let sent :=
              PutRow (keyspace selected) (table selected) pk updates in
            match settled with
            | Failed message => ([sent], caught message st)
            | Fulfilled =>
                let st := cancelEdit st in
                let r :=
                  refetch env (keyspace selected) (table selected)
                    (currentPageState (app env)) false outcome st in
                (sent :: r.1, setApp (setLoading false (app r.2)) r.2)
            end
      | _, _ => ([], caught typeErrorMessage st)
      end
  | _, _ => ([], env)
  end.

End Editor.

(** ** The keyspace tree of the sidebar *)

Module Sidebar.
Import JsString.

(** The part of the state that the tree reads and writes. *)
Record Tree : Type := {
  expandedKeyspaces : gset string;
  tables : gmap string (list string);
  error : option string
}.

Definition setExpandedKeyspaces (v : gset string) (st : Tree) : Tree :=
  {| expandedKeyspaces := v; tables := tables st; error := error st |}.

Definition setTables (v : gmap string (list string)) (st : Tree) : Tree :=
  {| expandedKeyspaces := expandedKeyspaces st; tables := v;
     error := error st |}.

Definition setError (v : option string) (st : Tree) : Tree :=
  {| expandedKeyspaces := expandedKeyspaces st; tables := tables st;
     error := v |}.

(** How the request of [fetchTables] settles. *)
Inductive Listing : Type :=
| Listed (names : list string)
| Unlisted (message : string).

Definition fetchTables (keyspace : string) (outcome : Listing) (st : Tree)
    : Tree :=
  match outcome with
  | Listed names => setTables (<[keyspace := names]> (tables st)) st
  | Unlisted message => setError (Some message) st
  end.

(** The names that every object inherits from [Object.prototype]; a read
    of one of them on [tables] yields a function or an object, never
    [undefined]. *)
Definition inheritedNames : list string :=
  [ "constructor"; "hasOwnProperty"; "isPrototypeOf";
    "propertyIsEnumerable"; "toLocaleString"; "toString"; "valueOf";
    "__proto__"; "__defineGetter__"; "__defineSetter__";
    "__lookupGetter__"; "__lookupSetter__" ].

(** The truth value of [tables[keyspace]]: an array, even an empty one, is
    true. *)
Definition listed (tables : gmap string (list string)) (keyspace : string)
    : bool :=
  match tables !! keyspace with
  | Some _ => true
  | None => bool_decide (keyspace ∈ inheritedNames)
  end.

(** [toggleKeyspace]; the first component tells the keyspaces that
    [fetchTables] was called for, and [outcome] how that call settles. *)
Definition toggleKeyspace (env : Tree) (keyspace : string) (outcome : Listing)
    : list string * Tree :=
  if bool_decide (keyspace ∈ expandedKeyspaces env) then
    ([], setExpandedKeyspaces (expandedKeyspaces env ∖ {[keyspace]}) env)
  else
    let newExpanded := expandedKeyspaces env ∪ {[keyspace]} in
    if negb (listed (tables env) keyspace) then
      ([keyspace],
       setExpandedKeyspaces newExpanded (fetchTables keyspace outcome env))
    else ([], setExpandedKeyspaces newExpanded env).

(** A run of clicks on keyspaces, each with the way its listing request
    would settle if one is made: the keyspaces fetched, oldest first, and
    the tree left behind. *)
Fixpoint toggles (clicks : list (string * Listing)) (env : Tree)
    : list string * Tree :=
  match clicks with
  | [] => ([], env)
  | (keyspace, outcome) :: rest =>
      let step := toggleKeyspace env keyspace outcome in
      let run := toggles rest step.2 in
      (step.1 ++ run.1, run.2)
  end.

(** The tree of the first render. *)
Definition folded : Tree :=
  {| expandedKeyspaces := ∅; tables := ∅; error := None |}.

(** [ks.startsWith('system')] *)
Definition isSystem (ks : string) : bool := String.prefix "system" ks.

(** The two lists of the sidebar. *)
Definition userKeyspaces (keyspaces : list string) : list string :=
  List.filter (fun ks => negb (isSystem ks)) keyspaces.

Definition systemKeyspaces (keyspaces : list string) : list string :=
  List.filter isSystem keyspaces.

(** The separator and the "System Keyspaces" heading are rendered. *)
Definition showsSystemHeading (keyspaces : list string) : bool :=
  (0 <? length (systemKeyspaces keyspaces))%nat.

End Sidebar.

(** ** The session *)

Module Auth.
Import JsString.

Inductive View : Type := dashboard | explorer.

(** The part of the state that logging in and out reads and writes,
    with the local storage of the browser. *)
Record Session : Type := {
  isAuthenticated : bool;
  username : string;
  view : View;
  localStorage : gmap string string
}.

(** A freshly loaded page over the given storage. *)
Definition loaded (storage : gmap string string) : Session :=
  {| isAuthenticated := false; username := ""; view := dashboard;
     localStorage := storage |}.

(** The effect that loads the saved token on mount. *)
Definition onMount (st : Session) : Session :=
  let savedToken := localStorage st !! "scylla_auth_token" in
  let savedUsername := localStorage st !! "scylla_username" in
  if truthy_opt savedToken && truthy_opt savedUsername then
    {| isAuthenticated := true;
       username := default "" savedUsername;
       view := view st;
       localStorage := localStorage st |}
  else st.

(** The state changes of [handleLogin]; the interceptor it registers and
    the two fetches it starts are left out. *)
Definition handleLogin (authToken user : string) (st : Session) : Session :=
  {| isAuthenticated := true;
     username := user;
     view := view st;
     localStorage :=
       <["scylla_username" := user]>
         (<["scylla_auth_token" := authToken]> (localStorage st)) |}.

Definition handleLogout (st : Session) : Session :=
  {| isAuthenticated := false;
     username := "";
     view := dashboard;
     localStorage :=
       delete "scylla_username"
         (delete "scylla_auth_token" (localStorage st)) |}.

(** The page is loaded again over the storage left behind. *)
Definition reload (st : Session) : Session :=
  onMount (loaded (localStorage st)).

End Auth.

(** ** The API key of the earlier revision of the component *)

Module ApiKey.
Import JsString.

Record KeyState : Type := {
  apiKey : string;
  showApiKeyInput : bool;
  localStorage : gmap string string
}.

Definition loaded (storage : gmap string string) : KeyState :=
  {| apiKey := ""; showApiKeyInput := false; localStorage := storage |}.

(** The effect that loads the key on mount; [envKey] is
    [import.meta.env.VITE_API_KEY]. *)
Definition onMount (envKey : option string) (st : KeyState) : KeyState :=
  let savedKey := localStorage st !! "scylla_api_key" in
  match or_null savedKey, or_null envKey with
  | Some k, _ =>
      {| apiKey := k; showApiKeyInput := showApiKeyInput st;
         localStorage := localStorage st |}
  | None, Some k =>
      {| apiKey := k; showApiKeyInput := showApiKeyInput st;
         localStorage := <["scylla_api_key" := k]> (localStorage st) |}
  | None, None =>
      {| apiKey := apiKey st; showApiKeyInput := true;
         localStorage := localStorage st |}
  end.

(** The state changes of [handleSetApiKey]. *)
Definition handleSetApiKey (st : KeyState) : KeyState :=
  {| apiKey := apiKey st; showApiKeyInput := false;
     localStorage := <["scylla_api_key" := apiKey st]> (localStorage st) |}.

Definition reload (envKey : option string) (st : KeyState) : KeyState :=
  onMount envKey (loaded (localStorage st)).

End ApiKey.

(** ** Server-side filters of the earlier revision of the component

    The earlier revision keeps a WHERE clause, an ORDER BY clause and an
    ALLOW FILTERING box as typed by the user.  The view, the query box
    and the result of the query editor are left out. *)

Module Earlier.
Import JsString Http.

Record State : Type := {
  selectedTable : option TableSchema;
  tableData : option PaginatedData;
  pageSize : Z;
  currentPageState : option string;
  pageHistory : list string;
  rowCount : option Z;
  loading : bool;
  error : option string;
  whereClause : string;
  orderBy : string;
  allowFiltering : bool
}.

Definition setLoadingError (l : bool) (e : option string) (st : State)
    : State :=
  {| selectedTable := selectedTable st; tableData := tableData st;
     pageSize := pageSize st; currentPageState := currentPageState st;
     pageHistory := pageHistory st; rowCount := rowCount st;
     loading := l; error := e;
     whereClause := whereClause st; orderBy := orderBy st;
     allowFiltering := allowFiltering st |}.

Definition setPageSizeHistory (size : Z) (history : list string) (st : State)
    : State :=
  {| selectedTable := selectedTable st; tableData := tableData st;
     pageSize := size; currentPageState := currentPageState st;
     pageHistory := history; rowCount := rowCount st;
     loading := loading st; error := error st;
     whereClause := whereClause st; orderBy := orderBy st;
     allowFiltering := allowFiltering st |}.

Definition setFilters (w o : string) (a : bool) (st : State) : State :=
  {| selectedTable := selectedTable st; tableData := tableData st;
     pageSize := pageSize st; currentPageState := currentPageState st;
     pageHistory := pageHistory st; rowCount := rowCount st;
     loading := loading st; error := error st;
     whereClause := w; orderBy := o; allowFiltering := a |}.

(** The four state changes after the three responses have arrived. *)
Definition setPage (r : Responses) (pageState : option string) (st : State)
    : State :=
  {| selectedTable := Some (schemaRes r); tableData := Some (rowsRes r);
     pageSize := pageSize st; currentPageState := pageState;
     pageHistory := pageHistory st; rowCount := Some (estimated_count r);
     loading := loading st; error := error st;
     whereClause := whereClause st; orderBy := orderBy st;
     allowFiltering := allowFiltering st |}.

(** [params] when the requests are issued. *)
Definition buildParams
    (env : State) (pageState : option string) (applyFilters : bool)
    : Params :=
  let params : Params :=
    {[ "page_size" := PNum (pageSize env);
       "page_state" := match or_null pageState with
                       | Some t => PStr t
                       | None => PUndefined
                       end ]} in
  if applyFilters then
    let params :=
      if truthy (whereClause env)
      then <["where_clause" := PStr (whereClause env)]> params
      else params in
    let params :=
      if truthy (orderBy env)
      then <["order_by" := PStr (orderBy env)]> params
      else params in
    if allowFiltering env
    then <["allow_filtering" := PBool true]> params
    else params
  else params.

(** One call of [fetchTableData]: the keyspace, the table and the
    [params] of its request for rows, and the state it leaves. *)
Definition fetchTableData
    (env : State) (keyspace table : string)
    (pageState : option string) (applyFilters : bool)
    (outcome : Outcome) (st : State)
    : list (string * string * Params) * State :=
  let st := setLoadingError true None st in
  let sent := (keyspace, table, buildParams env pageState applyFilters) in
  let st :=
    match outcome with
    | Resolved r =>
        let st := setPage r pageState st in
        if negb (truthy_opt pageState) && negb applyFilters
        then setFilters "" "" false st
        else st
    | Rejected message => setLoadingError (loading st) (Some message) st
    end in
  ([sent], setLoadingError false (error st) st).

Definition handleNextPage (env : State) (outcome : Outcome)
    : list (string * string * Params) * State :=
  match tableData env, selectedTable env with
  | Some data, Some selected =>
      if truthy_opt (next_page_state data) then
        let st :=
          setPageSizeHistory (pageSize env)
            (pageHistory env ++ [or_empty (currentPageState env)]) env in
        fetchTableData env (keyspace selected) (table selected)
          (next_page_state data) false outcome st
      else ([], env)
  | _, _ => ([], env)
  end.

Definition handlePreviousPage (env : State) (outcome : Outcome)
    : list (string * string * Params) * State :=
  match pageHistory env, selectedTable env with
  | _ :: _, Some selected =>
      let prevState := or_null (last (pageHistory env)) in
      let st :=
        setPageSizeHistory (pageSize env) (removelast (pageHistory env))
          env in
      fetchTableData env (keyspace selected) (table selected)
        prevState false outcome st
  | _, _ => ([], env)
  end.

Definition applyServerSideFilters (env : State) (outcome : Outcome)
    : list (string * string * Params) * State :=
  match selectedTable env with
  | Some selected =>
      let st := setPageSizeHistory (pageSize env) [] env in
      fetchTableData env (keyspace selected) (table selected)
        None true outcome st
  | None => ([], env)
  end.

End Earlier.

(** ** The component as a whole: what the user can do, step by step *)

Module Reach.
Import JsString Js Http App Editor.

(** One action of the user on the explorer, with the way the requests it
    starts settle. *)
Inductive Event : Type :=
| TableClick (keyspace table : string) (outcome : Outcome)
| NextPage (outcome : Outcome)
| PreviousPage (outcome : Outcome)
| PageSizeChange (newSize : Z) (outcome : Outcome)
| ApplyFilters (outcome : Outcome)
| ClearFilters (outcome : Outcome)
| FilterColumnChange (value : string)
| FilterOperatorChange (value : string)
| FilterValueChange (value : string)
| QueryLimitChange (value : string)
| ColumnSort (columnName : string)
| ToggleRow (index : nat)
| ToggleAll
| OpenDeleteConfirm
| CloseDeleteConfirm
| DeleteSelected (settled : Settled) (outcome : Outcome)
| StartEdit (index : nat)
| EditField (field value : string)
| CancelEdit
| SaveEdit (settled : Settled) (outcome : Outcome).

(** A change of the explorer state that starts no request. *)
Definition quiet (f : State -> State) (env : Full) : list Sent * Full :=
  ([], setApp (f (app env)) env).

Definition handle `{Runtime} `{Engine} (ev : Event) (env : Full)
    : list Sent * Full :=
  match ev with
  | TableClick keyspace table o =>
      lift (fun st => onTableClick st keyspace table o) env
  | NextPage o => lift (fun st => handleNextPage st o) env
  | PreviousPage o => lift (fun st => handlePreviousPage st o) env
  | PageSizeChange newSize o =>
      lift (fun st => handlePageSizeChange st newSize o) env
  | ApplyFilters o => lift (fun st => applyServerSideFilters st o) env
  | ClearFilters o => lift (fun st => clearServerSideFilters st o) env
  | FilterColumnChange v => quiet (setFilterColumn v) env
  | FilterOperatorChange v => quiet (setFilterOperator v) env
  | FilterValueChange v => quiet (setFilterValue v) env
  | QueryLimitChange v => quiet (Limit.onQueryLimitChange v) env
  | ColumnSort columnName =>
      quiet (fun st => handleColumnSort st columnName) env
  | ToggleRow index => ([], toggleRowSelection env index)
  | ToggleAll => ([], toggleSelectAll env)
  | OpenDeleteConfirm => ([], setShowDeleteConfirm true env)
  | CloseDeleteConfirm => ([], setShowDeleteConfirm false env)
  | DeleteSelected settled o => deleteSelectedRows env settled o
  | StartEdit index => ([], startEditRow env index)
  | EditField field value => ([], updateEditFormField env field value)
  | CancelEdit => ([], cancelEdit env)
  | SaveEdit settled o => saveEditRow env settled o
  end.

(** The number of rows on display. *)
Definition rowsShown (env : Full) : nat :=
  match tableData (app env) with
  | Some data => length (rows data)
  | None => 0%nat
  end.

(** The action is one that the rendered page offers: the page sizes are
    those of the select, and the check box and the edit button belong to
    a row on display. *)
Definition offered (env : Full) (ev : Event) : Prop :=
  match ev with
  | PageSizeChange newSize _ => newSize = 20 \/ newSize = 50 \/ newSize = 100
  | ToggleRow index | StartEdit index => (index < rowsShown env)%nat
  | _ => True
  end.

(** The states that the component can be in between two actions. *)
Inductive reachable `{Runtime} `{Engine} : Full -> Prop :=
| reach_start : reachable start
| reach_step (env : Full) (ev : Event) :
    reachable env -> offered env ev -> reachable (handle ev env).2.

(** The explorer state between two actions: the page token is [null] or
    a non-empty string, the limit is positive, the page size is one of the
    select, and nothing is loading. *)
Definition steady (st : State) : Prop :=
  plainToken (currentPageState st) /\ 1 <= queryLimit st /\
  (pageSize st = 20 \/ pageSize st = 50 \/ pageSize st = 100) /\
  loading st = false.

(** The edit form, when open, is open on a row. *)
Definition formOnRow (env : Full) : Prop :=
  forall index data, editingRow env = Some (index, data) -> is_Some data.

(** What every such state satisfies. *)
Record invariant (env : Full) : Prop := {
  inv_token : plainToken (currentPageState (app env));
  inv_limit : 1 <= queryLimit (app env);
  inv_size : pageSize (app env) = 20 \/ pageSize (app env) = 50
             \/ pageSize (app env) = 100;
  inv_loading : loading (app env) = false;
  inv_ticks : NoDup (selectedRows env);
  inv_range : Forall (fun i => (i < rowsShown env)%nat) (selectedRows env)
}.

End Reach.

(** ** Sample data with a key column *)

Module Cases.
Import JsString Js Http App Editor Reach.

(** A stand-in for [===], exact on [null], booleans, numbers that are no
    NaN and text, which are compared by value; arrays and objects count
    as distinct, and a missing property equals only a missing property. *)
Definition sameValue (a b : option JSValue) : bool :=
  match a, b with
  | None, None => true
  | Some JNull, Some JNull => true
  | Some (JBool x), Some (JBool y) => Bool.eqb x y
  | Some (JNum (Finite x)), Some (JNum (Finite y)) => Qeq_bool x y
  | Some (JNum (Infinity x)), Some (JNum (Infinity y)) => Bool.eqb x y
  | Some (JStr x), Some (JStr y) => String.eqb x y
  | _, _ => false
  end.

#[local] Instance engine : Engine := {|
  strictEquals := sameValue;
  typeErrorMessage := "Cannot read properties of undefined"
|}.

Definition person (id : Z) (name : string) (score : Z) : TableRow :=
  {[ "id" := Sample.num id; "name" := JStr name;
     "score" := Sample.num score ]}.

Definition people : list TableRow :=
  [ person 1 "dee" 3; person 2 "ann" 9; person 3 "bob" 7 ].

Definition peoplePage : PaginatedData :=
  {| rows := people;
     page_size := 50;
     has_more := true;
     next_page_state := Some "tokA";
     count := 3 |}.

Definition listing : Outcome :=
  Resolved {| schemaRes := Sample.schema "users";
              rowsRes := peoplePage;
              estimated_count := 120 |}.

(** The first page of [shop.users] after a click on the table. *)
Definition opened : Full :=
  (handle (H := Sample.runtime) (TableClick "shop" "users" listing) start).2.

(** The second and the third row are ticked. *)
Definition ticked : Full :=
  (handle (H := Sample.runtime) (ToggleRow 2)
     (handle (H := Sample.runtime) (ToggleRow 1) opened).2).2.

(** The page is sorted by name and the edit form of its first row, that
    of ann, is open with a new score typed in. *)
Definition editing : Full :=
  updateEditFormField
    (startEditRow (H := Sample.runtime)
       (quiet (fun st => handleColumnSort st "name") opened).2 0)
    "score" "10".

End Cases.

(** * Properties *)

(** ** Strings *)

Module JsStringFacts.
Import JsString.

Lemma app_eq_nil (s t : string) : s +:+ t = "" -> s = "" /\ t = "".
Proof. destruct s; simpl; [auto | discriminate]. Qed.

Lemma app_eq_cons (s t u : string) (a : ascii) :
  s +:+ t = String a u ->
  (s = "" /\ t = String a u) \/ (exists s', s = String a s' /\ u = s' +:+ t).
Proof.
  destruct s as [|c s]; simpl; intros E.
  - now left.
  - right. injection E as -> <-. now exists s.
Qed.

Lemma truthy_true (s : string) : truthy s = true <-> s <> "".
Proof. destruct s; simpl; split; congruence. Qed.


(** A plain token survives the round trip through the history:
    [(c || '') || null] is [c] again. *)
Lemma or_null_or_empty (c : option string) :
  plainToken c -> or_null (Some (or_empty c)) = c.
Proof.
  destruct c as [[|a t]|]; simpl; intros H; try reflexivity.
  now contradiction H.
Qed.

End JsStringFacts.

(** ** The matcher decides the language of the pattern *)

Module RegexFacts.
Import JsString JsStringFacts Regex.

Lemma nullable_matches (r : regex) : nullable r = true -> matches r "".
Proof.
  induction r; simpl; intros H; try discriminate.
  - constructor.
  - apply andb_prop in H as [H1 H2].
    change "" with ("" +:+ ""). constructor; auto.
  - apply orb_prop in H as [H|H]; [apply m_alt_l | apply m_alt_r]; auto.
  - constructor.
Qed.

Lemma matches_nil_nullable (r : regex) (s : string) :
  matches r s -> s = "" -> nullable r = true.
Proof.
  induction 1; simpl; intros E; try discriminate; try reflexivity.
  - apply app_eq_nil in E as [-> ->]. rewrite IHmatches1, IHmatches2; auto.
  - rewrite IHmatches; auto.
  - rewrite IHmatches; auto using orb_true_r.
Qed.

Lemma nullable_spec (r : regex) : nullable r = true <-> matches r "".
Proof.
  split; [apply nullable_matches|].
  intros H. eapply matches_nil_nullable; eauto.
Qed.

Lemma deriv_sound (a : ascii) (r : regex) :
  forall s, matches (deriv a r) s -> matches r (String a s).
Proof.
  induction r; simpl; intros s H.
  - inversion H.
  - inversion H.
  - destruct (Ascii.eqb_spec a c) as [->|]; inversion H; subst. constructor.
  - destruct (isDigit a) eqn:D; inversion H; subst. now constructor.
  - destruct (nullable r1) eqn:N.
    + inversion H as [| | | | ? ? ? H1 | ? ? ? H1 | |]; subst.
      * inversion H1; subst.
        change (String a (?x +:+ ?y)) with (String a x +:+ y).
        constructor; auto.
      * change (String a s) with ("" +:+ String a s).
        constructor; auto. now apply nullable_matches.
    + inversion H; subst.
      change (String a (?x +:+ ?y)) with (String a x +:+ y).
      constructor; auto.
  - inversion H; subst; [apply m_alt_l | apply m_alt_r]; auto.
  - inversion H; subst.
    change (String a (?x +:+ ?y)) with (String a x +:+ y).
    constructor; auto.
Qed.

Lemma deriv_complete (r : regex) (w : string) :
  matches r w -> forall x u, w = String x u -> matches (deriv x r) u.
Proof.
  induction 1 as [ | c | c D | r1 r2 s1 s2 H1 IH1 H2 IH2 | r1 r2 s H IH
                 | r1 r2 s H IH | r | r s1 s2 H1 IH1 H2 IH2 ];
    intros x u E; simpl; try discriminate.
  - injection E as -> <-. rewrite Ascii.eqb_refl. constructor.
  - injection E as -> <-. rewrite D. constructor.
  - apply app_eq_cons in E as [[-> E]|(s' & -> & ->)].
    + rewrite (matches_nil_nullable _ _ H1 eq_refl). apply m_alt_r. eauto.
    + destruct (nullable r1); [apply m_alt_l|]; constructor; eauto.
  - apply m_alt_l. eauto.
  - apply m_alt_r. eauto.
  - apply app_eq_cons in E as [[-> E]|(s' & -> & ->)].
    + apply (IH2 _ _ E).
    + constructor; eauto.
Qed.

Lemma deriv_spec (a : ascii) (r : regex) (s : string) :
  matches (deriv a r) s <-> matches r (String a s).
Proof.
  split; [apply deriv_sound | intros H; eapply deriv_complete; eauto].
Qed.

Theorem test_spec (r : regex) (s : string) : test r s = true <-> matches r s.
Proof.
  revert r. induction s as [|a s IH]; intros r; simpl.
  - apply nullable_spec.
  - rewrite IH. apply deriv_spec.
Qed.

End RegexFacts.

(** ** The WHERE-clause builder *)

Module FilterFacts.
Import JsString JsStringFacts Regex RegexFacts Filter FilterSpec.

Lemma matches_chr (c : ascii) (s : string) :
  matches (Chr c) s <-> s = String c "".
Proof. split; [inversion 1; reflexivity | intros ->; constructor]. Qed.

Lemma matches_seq (r1 r2 : regex) (s : string) :
  matches (Seq r1 r2) s <->
  exists s1 s2, s = s1 +:+ s2 /\ matches r1 s1 /\ matches r2 s2.
Proof.
  split.
  - inversion 1; subst; eauto.
  - intros (s1 & s2 & -> & H1 & H2). now constructor.
Qed.

Lemma matches_opt (r : regex) (s : string) :
  matches (Opt r) s <-> s = "" \/ matches r s.
Proof.
  unfold Opt. split.
  - inversion 1 as [| | | | ? ? ? H1 | ? ? ? H1 | |]; subst; auto.
    inversion H1; auto.
  - intros [->|H]; [apply m_alt_r; constructor | now apply m_alt_l].
Qed.

Lemma star_digit_allDigits (r : regex) (s : string) :
  matches r s -> r = Star Digit -> allDigits s = true.
Proof.
  induction 1 as [ | | | | | | | r s1 s2 H1 _ H2 IH2 ];
    intros E; try discriminate; [reflexivity|].
  injection E as ->. inversion H1 as [| |c D| | | | |]; subst.
  simpl. rewrite D. auto.
Qed.

Lemma allDigits_star_digit (s : string) :
  allDigits s = true -> matches (Star Digit) s.
Proof.
  induction s as [|c s IH]; simpl; intros H; [constructor|].
  apply andb_prop in H as [D H].
  change (String c s) with (String c "" +:+ s).
  constructor; [now constructor | auto].
Qed.

Lemma matches_plus_digit (s : string) : matches (Plus Digit) s <-> digits s.
Proof.
  unfold Plus, digits. rewrite matches_seq. split.
  - intros (s1 & s2 & -> & H1 & H2).
    inversion H1 as [| |c D| | | | |]; subst. simpl. split; [discriminate|].
    rewrite D. eapply star_digit_allDigits; eauto.
  - intros [Hne H]. destruct s as [|c s]; [congruence|].
    simpl in H. apply andb_prop in H as [D H].
    exists (String c ""), s.
    split; [reflexivity|]. split; [now constructor|].
    now apply allDigits_star_digit.
Qed.

(** The pattern of the code denotes the numeric grammar of the
    specification. *)
Lemma numberPattern_grammar (s : string) :
  matches numberPattern s <-> numericGrammar s.
Proof.
  unfold numberPattern, numericGrammar. rewrite matches_seq. split.
  - intros (sign & rest & -> & Hs & Hr).
    apply matches_opt in Hs.
    apply matches_seq in Hr as (int & frac & -> & Hi & Hf).
    apply matches_plus_digit in Hi. apply matches_opt in Hf.
    exists sign, int, frac.
    split; [reflexivity|]. split; [|split; [exact Hi|]].
    + destruct Hs as [->|Hs]; [now left | right; now apply matches_chr in Hs].
    + destruct Hf as [->|Hf]; [now left | right].
      apply matches_seq in Hf as (p & d & -> & Hp & Hd).
      apply matches_chr in Hp as ->. apply matches_plus_digit in Hd.
      now exists d.
  - intros (sign & int & frac & -> & Hs & Hi & Hf).
    exists sign, (int +:+ frac).
    split; [reflexivity|]. split.
    + apply matches_opt.
      destruct Hs as [->| ->]; [now left | right; constructor].
    + apply matches_seq. exists int, frac.
      split; [reflexivity|]. split.
      * now apply matches_plus_digit.
      * apply matches_opt.
        destruct Hf as [->|(d & -> & Hd)]; [now left | right].
        apply matches_seq. exists ".", d.
        split; [reflexivity|]. split; [constructor|].
        now apply matches_plus_digit.
Qed.

(** [isNumber] looks at the trimmed value. *)
Lemma isNumber_spec (v : string) :
  isNumber v = true <-> numericGrammar (trim v).
Proof. unfold isNumber. rewrite test_spec. apply numberPattern_grammar. Qed.

Lemma test_numberPattern_grammar (s : string) :
  test numberPattern s = true <-> numericGrammar s.
Proof. rewrite test_spec. apply numberPattern_grammar. Qed.

Lemma readBody_plain (v : string) :
  includesChar "'" v = false -> readBody (v +:+ "'") = Some v.
Proof.
  induction v as [|c v IH]; intros H; [reflexivity|].
  change (includesChar "'" (String c v))
    with (if Ascii.eqb "'" c then true else includesChar "'" v) in H.
  change (readBody (String c v +:+ "'"))
    with (if Ascii.eqb c "'"
          then match v +:+ "'" with
               | "" => Some ""
               | String d s'' =>
                   if Ascii.eqb d "'"
                   then option_map (String "'") (readBody s'')
                   else None
               end
          else option_map (String c) (readBody (v +:+ "'"))).
  rewrite Ascii.eqb_sym in H.
  destruct (Ascii.eqb c "'"); [discriminate|].
  now rewrite IH.
Qed.

(** Read back, the literal of a value is the value itself when the value
    holds no quote, and is shorter than the value otherwise. *)
Lemma readBody_snoc (n : nat) :
  forall v r : string,
    (String.length v <= n)%nat ->
    readBody (v +:+ "'") = Some r ->
    (includesChar "'" v = false /\ r = v)
    \/ (String.length r < String.length v)%nat.
Proof.
  induction n as [|n IH]; intros v r Hn H.
  - destruct v; [|simpl in Hn; lia]. injection H as <-. now left.
  - destruct v as [|c v]; [injection H as <-; now left|].
    change (includesChar "'" (String c v))
      with (if Ascii.eqb "'" c then true else includesChar "'" v).
    change (readBody (String c v +:+ "'"))
      with (if Ascii.eqb c "'"
            then match v +:+ "'" with
                 | "" => Some ""
                 | String d s'' =>
                     if Ascii.eqb d "'"
                     then option_map (String "'") (readBody s'')
                     else None
                 end
            else option_map (String c) (readBody (v +:+ "'"))) in H.
    rewrite Ascii.eqb_sym. simpl in Hn.
    destruct (Ascii.eqb c "'") eqn:Ec; rewrite ?Ec in H.
    + right. destruct v as [|d v]; [cbv in H; discriminate H|].
      change (String d v +:+ "'") with (String d (v +:+ "'")) in H.
      cbv beta iota in H.
      destruct (Ascii.eqb d "'") eqn:Ed; rewrite ?Ed in H; [|discriminate H].
      destruct (readBody (v +:+ "'")) as [r'|] eqn:E; [|discriminate H].
      injection H as <-. simpl in Hn.
      destruct (IH v r' ltac:(lia) E) as [[_ ->]|Hlt]; simpl; lia.
    + destruct (readBody (v +:+ "'")) as [r'|] eqn:E; [|discriminate H].
      injection H as <-.
      destruct (IH v r' ltac:(lia) E) as [[Hq ->]|Hlt];
        [left; now split | right; simpl; lia].
Qed.

(** The reader undoes the quoting of the specification, so a literal that
    is not read back is not a literal of that quoting. *)
Lemma readQuoted_sqlQuote (v : string) : readQuoted (sqlQuote v) = Some v.
Proof.
  unfold sqlQuote. change (readBody (escapeQuotes v +:+ "'") = Some v).
  induction v as [|c v IH]; [reflexivity|].
  change (escapeQuotes (String c v))
    with (if Ascii.eqb c "'"
          then String "'" (String "'" (escapeQuotes v))
          else String c (escapeQuotes v)).
  destruct (Ascii.eqb_spec c "'") as [->|Hc].
  - change (option_map (String "'") (readBody (escapeQuotes v +:+ "'"))
            = Some (String "'" v)).
    now rewrite IH.
  - change (readBody (String c (escapeQuotes v +:+ "'")) = Some (String c v)).
    change (readBody (String c (escapeQuotes v +:+ "'")))
      with (if Ascii.eqb c "'"
            then match escapeQuotes v +:+ "'" with
                 | "" => Some ""
                 | String d s'' =>
                     if Ascii.eqb d "'"
                     then option_map (String "'") (readBody s'')
                     else None
                 end
            else option_map (String c) (readBody (escapeQuotes v +:+ "'"))).
    apply Ascii.eqb_neq in Hc. now rewrite Hc, IH.
Qed.

Lemma includesChar_app (c : ascii) (s t : string) :
  includesChar c (s +:+ t) = includesChar c s || includesChar c t.
Proof.
  induction s as [|d s IH]; [reflexivity|].
  change (includesChar c (String d s +:+ t))
    with (if Ascii.eqb c d then true else includesChar c (s +:+ t)).
  change (includesChar c (String d s))
    with (if Ascii.eqb c d then true else includesChar c s).
  now destruct (Ascii.eqb c d).
Qed.

Lemma includesChar_trimStart (c : ascii) (s : string) :
  isWhiteSpace c = false ->
  includesChar c (trimStart s) = includesChar c s.
Proof.
  intros Hc. induction s as [|d s IH]; [reflexivity|].
  change (trimStart (String d s))
    with (if isWhiteSpace d then trimStart s else String d s).
  destruct (isWhiteSpace d) eqn:Hd; [|reflexivity].
  change (includesChar c (String d s))
    with (if Ascii.eqb c d then true else includesChar c s).
  destruct (Ascii.eqb_spec c d) as [->|]; [congruence | exact IH].
Qed.

Lemma includesChar_trimEnd (c : ascii) (s : string) :
  isWhiteSpace c = false ->
  includesChar c (trimEnd s) = includesChar c s.
Proof.
  intros Hc. induction s as [|d s IH]; [reflexivity|].
  change (trimEnd (String d s))
    with (match trimEnd s with
          | "" => if isWhiteSpace d then "" else String d ""
          | String e r => String d (String e r)
          end).
  change (includesChar c (String d s))
    with (if Ascii.eqb c d then true else includesChar c s).
  rewrite <- IH. destruct (trimEnd s) as [|e r]; [|reflexivity].
  destruct (isWhiteSpace d) eqn:Hd; [|reflexivity].
  destruct (Ascii.eqb_spec c d) as [->|]; [congruence | reflexivity].
Qed.

Lemma allDigits_no_quote (s : string) :
  allDigits s = true -> includesChar "'" s = false.
Proof.
  induction s as [|d s IH]; [reflexivity|]. intros H.
  change (isDigit d && allDigits s = true) in H.
  change (includesChar "'" (String d s))
    with (if Ascii.eqb "'" d then true else includesChar "'" s).
  apply andb_prop in H as [Hd H].
  destruct (Ascii.eqb_spec "'" d) as [<-|]; [discriminate Hd | auto].
Qed.

Lemma numericGrammar_no_quote (s : string) :
  numericGrammar s -> includesChar "'" s = false.
Proof.
  intros (sign & int & frac & -> & Hs & [_ Hi] & Hf).
  rewrite !includesChar_app, (allDigits_no_quote int Hi).
  destruct Hs as [-> | ->], Hf as [-> | (d & -> & _ & Hd)];
    rewrite ?includesChar_app, ?(allDigits_no_quote _ Hd); reflexivity.
Qed.

(** A value that holds a quote is Text. *)
Lemma quote_not_number (v : string) :
  includesChar "'" v = true -> isNumber v = false.
Proof.
  intros Hq. destruct (isNumber v) eqn:Hn; [|reflexivity].
  apply isNumber_spec, numericGrammar_no_quote in Hn. unfold trim in Hn.
  rewrite includesChar_trimEnd, includesChar_trimStart in Hn by reflexivity.
  congruence.
Qed.

Lemma buildWhereClause_compare (c op v : string) :
  op <> "CONTAINS" ->
  buildWhereClause c op v = c +:+ " " +:+ op +:+ " " +:+ quotedValue v.
Proof.
  intros H. unfold buildWhereClause.
  now destruct (String.eqb_spec op "CONTAINS").
Qed.

Lemma buildWhereClause_contains (c v : string) :
  buildWhereClause c "CONTAINS" v = c +:+ " LIKE '%" +:+ v +:+ "%'".
Proof. reflexivity. Qed.


(** A value that holds a quote is emitted between quotes as typed, and is
    never read back from that literal. *)
Lemma quoted_with_quote_not_read_back (v : string) :
  includesChar "'" v = true ->
  quotedValue v = "'" +:+ v +:+ "'" /\
  readQuoted (quotedValue v) <> Some v.
Proof.
  intros Hq. unfold quotedValue. rewrite (quote_not_number v Hq).
  split; [reflexivity|]. intros H. simpl in H.
  destruct (readBody_snoc (String.length v) v v (Nat.le_refl _) H)
    as [[Hq' _]|Hlt]; [congruence | lia].
Qed.

(** The scenarios of the specification, and the edges of the pattern. *)
Example equality_on_text :
  buildWhereClause "status" "=" "active" = "status = 'active'".
Proof. reflexivity. Qed.

Example comparison_on_number :
  buildWhereClause "score" ">=" "4.5" = "score >= 4.5".
Proof. reflexivity. Qed.

Example isNumber_edges :
  map isNumber ["-12"; "007"; " 42 "; "4.5"; "4."; ".5"; "1e5"; "+3"; "";
                "1 2"; "-"]
  = [true; true; true; true; false; false; false; false; false;
     false; false].
Proof. reflexivity. Qed.

(** C1, as amended.  For a comparison operator, the value is classified
    Numeric exactly when the value with its surrounding white space
    trimmed matches the numeric grammar, and is then emitted as typed,
    unquoted; every other value is emitted between single quotes as typed,
    with no escaping, so a Text value without a quote character is read
    back from its literal. *)
Theorem quoting_follows_trimmed_grammar (c op v : string) :
  op <> "CONTAINS" ->
  (isNumber v = true <-> numericGrammar (trim v)) /\
  (isNumber v = true ->
   buildWhereClause c op v = c +:+ " " +:+ op +:+ " " +:+ v) /\
  (isNumber v = false ->
   buildWhereClause c op v = c +:+ " " +:+ op +:+ " " +:+ "'" +:+ v +:+ "'") /\
  (isNumber v = false -> includesChar "'" v = false ->
   readQuoted (quotedValue v) = Some v).
Proof.
  intros Hop. split; [apply isNumber_spec|].
  rewrite (buildWhereClause_compare c op v Hop). unfold quotedValue.
  repeat split; intros Hn; rewrite Hn; try reflexivity.
  intros Hq. simpl. now apply readBody_plain.
Qed.

Lemma quoting_follows_trimmed_grammar_witness :
  buildWhereClause "status" "=" "active" = "status = 'active'" /\
  readQuoted (quotedValue "active") = Some "active".
Proof.
  destruct (quoting_follows_trimmed_grammar "status" "=" "active")
    as (_ & _ & H3 & H4); [discriminate|].
  split; [apply H3 | apply H4]; reflexivity.
Defined.

(** C1, as stated, fails.  A value holding a quote is emitted with the
    quote as typed, which is not the doubled literal and is not read back;
    and a padded numeral is Numeric although it is outside the grammar. *)
Lemma quoting_not_as_specified :
  ~ quotesAsSpecified "name" "=" "O'Brien" /\
  ~ quotesAsSpecified "age" "=" " 42".
Proof.
  split.
  - intros (_ & _ & H & _). specialize (H eq_refl). discriminate H.
  - intros (H & _). destruct H as [H _]. specialize (H eq_refl).
    apply test_numberPattern_grammar in H. discriminate H.
Qed.

End FilterFacts.

(** ** The page-token history *)

Module CursorFacts.
Import JsString JsStringFacts Js Http App.

Lemma fetch_requests env k t ps af o st :
  (fetchTableData env k t ps af o st).1 = buildRequests env k t ps af.
Proof. reflexivity. Qed.

Lemma fetch_pageHistory env k t ps af o st :
  pageHistory (fetchTableData env k t ps af o st).2 = pageHistory st.
Proof.
  unfold fetchTableData. destruct o as [r|m]; simpl; [|reflexivity].
  now destruct (negb (truthy_opt ps) && negb af).
Qed.

Lemma fetch_resolved_current env k t ps af r st :
  currentPageState (fetchTableData env k t ps af (Resolved r) st).2 = ps.
Proof.
  unfold fetchTableData. simpl.
  now destruct (negb (truthy_opt ps) && negb af).
Qed.

Lemma fetch_resolved_selected env k t ps af r st :
  selectedTable (fetchTableData env k t ps af (Resolved r) st).2
  = Some (schemaRes r).
Proof.
  unfold fetchTableData. simpl.
  now destruct (negb (truthy_opt ps) && negb af).
Qed.

Lemma fetch_resolved_data env k t ps af r st :
  tableData (fetchTableData env k t ps af (Resolved r) st).2
  = Some (rowsRes r).
Proof.
  unfold fetchTableData. simpl.
  now destruct (negb (truthy_opt ps) && negb af).
Qed.

(** One Next, pressed on a page that offers the token [t]. *)
Lemma next_resolved env p t r :
  tableData env = Some p -> next_page_state p = Some t -> t <> "" ->
  is_Some (selectedTable env) ->
  let st' := (handleNextPage env (Resolved r)).2 in
  pageHistory st' = pageHistory env ++ [or_empty (currentPageState env)] /\
  currentPageState st' = Some t /\
  selectedTable st' = Some (schemaRes r) /\
  tableData st' = Some (rowsRes r).
Proof.
  intros Hd Ht Hne [sel Hs]. unfold handleNextPage. rewrite Hd, Hs, Ht.
  simpl truthy_opt. apply truthy_true in Hne. rewrite Hne.
  unfold fetched. cbn [snd].
  rewrite fetch_pageHistory, fetch_resolved_current,
    fetch_resolved_selected, fetch_resolved_data.
  auto.
Qed.

(** One Previous, pressed with [x] on top of the history. *)
Lemma previous_resolved env h x r :
  pageHistory env = h ++ [x] -> is_Some (selectedTable env) ->
  let st' := (handlePreviousPage env (Resolved r)).2 in
  pageHistory st' = h /\
  currentPageState st' = or_null (Some x) /\
  selectedTable st' = Some (schemaRes r).
Proof.
  intros Hh [sel Hs]. unfold handlePreviousPage. rewrite Hh, Hs.
  destruct (h ++ [x]) as [|y l] eqn:E; [now destruct h|].
  rewrite <- E. unfold fetched. cbn [snd].
  rewrite fetch_pageHistory, fetch_resolved_current, fetch_resolved_selected.
  cbn [pageHistory setPageHistory].
  rewrite removelast_last, last_snoc. auto.
Qed.

Lemma statesAfter_length evs st : length (statesAfter evs st) = length evs.
Proof.
  revert st. induction evs as [|[ev o] evs IH]; intros st; simpl; auto.
Qed.

Lemma last_cons {A} (a d : A) (l : list A) :
  List.last (a :: l) d = List.last l a.
Proof.
  revert a d. induction l as [|b l IH]; intros a d; [reflexivity|].
  change (List.last (a :: b :: l) d) with (List.last (b :: l) d).
  now rewrite !IH.
Qed.

Lemma length_removelast_cons {A} (a : A) (l : list A) :
  length (removelast (a :: l)) = length l.
Proof.
  revert a. induction l as [|b l IH]; intros a; [reflexivity|].
  change (removelast (a :: b :: l)) with (a :: removelast (b :: l)).
  cbn [length]. now rewrite IH.
Qed.

Lemma last_map {A B} (f : A -> B) (l : list A) (d : A) :
  f (List.last l d) = List.last (map f l) (f d).
Proof.
  revert d. induction l as [|a l IH]; intros d; [reflexivity|].
  cbn [map]. now rewrite !last_cons, IH.
Qed.

Lemma advances_spec (advs : list Responses) :
  forall (st0 : State) (p0 : PaginatedData) (ts : list string),
    is_Some (selectedTable st0) -> tableData st0 = Some p0 ->
    plainToken (currentPageState st0) ->
    Forall (fun t => t <> "") ts ->
    map next_page_state (removelast (p0 :: map rowsRes advs)) = map Some ts ->
    let during := statesAfter (presses Next advs) st0 in
    map currentPageState during = map Some ts /\
    pageHistory (List.last during st0)
    = pageHistory st0 ++ map or_empty (currentsBefore st0 during) /\
    Forall plainToken (currentsBefore st0 during) /\
    is_Some (selectedTable (List.last during st0)).
Proof.
  unfold currentsBefore.
  induction advs as [|r advs IH]; intros st0 p0 ts Hsel Hdata Hc Hts Hoff.
  - destruct ts; [|discriminate]. simpl.
    rewrite List.app_nil_r. auto.
  - cbn [map] in Hoff.
    change (removelast (p0 :: rowsRes r :: map rowsRes advs))
      with (p0 :: removelast (rowsRes r :: map rowsRes advs)) in Hoff.
    destruct ts as [|t ts]; [discriminate|].
    cbn [map] in Hoff. injection Hoff as Hp0 Hoff.
    apply Forall_cons in Hts as [Ht Hts].
    destruct (next_resolved st0 p0 t r Hdata Hp0 Ht Hsel)
      as (Hh & Hcur & Hs & Hd).
    cbn [presses map statesAfter navigate].
    set (st1 := (handleNextPage st0 (Resolved r)).2) in *.
    assert (Hsel1 : is_Some (selectedTable st1)) by (rewrite Hs; eauto).
    assert (Hc1 : plainToken (currentPageState st1)) by now rewrite Hcur.
    destruct (IH st1 (rowsRes r) ts Hsel1 Hd Hc1 Hts Hoff)
      as (IH1 & IH2 & IH3 & IH4).
    fold (presses Next advs).
    set (during := statesAfter (presses Next advs) st1) in *.
    change (removelast (st0 :: st1 :: during))
      with (st0 :: removelast (st1 :: during)).
    rewrite last_cons. cbn [map].
    split; [now rewrite Hcur, IH1|].
    split; [|split; [constructor; auto | auto]].
    rewrite IH2, Hh, <- List.app_assoc. reflexivity.
Qed.

Lemma retreats_spec (rets : list Responses) :
  forall (st : State) (h : list string) (bs : list (option string)),
    pageHistory st = h ++ map or_empty bs ->
    Forall plainToken bs ->
    is_Some (selectedTable st) ->
    length rets = length bs ->
    let after := statesAfter (presses Previous rets) st in
    map currentPageState after = rev bs /\
    pageHistory (List.last after st) = h.
Proof.
  induction rets as [|r rets IH]; intros st h bs Hh Hbs Hsel Hlen.
  - destruct bs; [|discriminate]. simpl in *.
    now rewrite List.app_nil_r in Hh.
  - destruct bs as [|b bs _] using rev_ind; [discriminate|].
    rewrite length_app in Hlen. simpl in Hlen.
    apply Forall_app in Hbs as [Hbs Hb]. apply Forall_inv in Hb.
    rewrite map_app, List.app_assoc in Hh. cbn [map] in Hh.
    destruct (previous_resolved st _ _ r Hh Hsel) as (Hh1 & Hc1 & Hs1).
    cbn [presses map statesAfter navigate].
    set (st1 := (handlePreviousPage st (Resolved r)).2) in *.
    fold (presses Previous rets).
    assert (Hsel1 : is_Some (selectedTable st1)) by (rewrite Hs1; eauto).
    assert (Hlen1 : length rets = length bs) by lia.
    destruct (IH st1 h bs Hh1 Hbs Hsel1 Hlen1) as [IH1 IH2].
    rewrite last_cons. cbn [map]. rewrite rev_unit, IH1, Hc1.
    rewrite or_null_or_empty by assumption. auto.
Qed.

(** C2.  From the first page, [n] presses of Next on pages offering the
    tokens [t1..tn], then [n] presses of Previous, every fetch resolving:
    the [i]-th Next makes [ti] current; the Previous presses bring back,
    last first, the tokens that were current just before each Next; and
    the run ends on the first page, with an empty history and no current
    token. *)
Theorem advance_then_retreat
    (st0 : State) (p0 : PaginatedData) (ts : list string)
    (advs rets : list Responses) :
  pageHistory st0 = [] -> currentPageState st0 = None ->
  is_Some (selectedTable st0) -> tableData st0 = Some p0 ->
  Forall (fun t => t <> "") ts ->
  map next_page_state (removelast (p0 :: map rowsRes advs)) = map Some ts ->
  length rets = length advs ->
  let during := statesAfter (presses Next advs) st0 in
  let reached := List.last during st0 in
  let after := statesAfter (presses Previous rets) reached in
  map currentPageState during = map Some ts /\
  map currentPageState after = rev (currentsBefore st0 during) /\
  pageHistory (List.last after reached) = [] /\
  currentPageState (List.last after reached) = None.
Proof.
  intros Hh Hc Hsel Hdata Hts Hoff Hlen during reached after.
  destruct (advances_spec advs st0 p0 ts) as (A1 & A2 & A3 & A4); auto.
  { now rewrite Hc. }
  fold during in A1, A2, A3, A4. fold reached in A2, A4.
  rewrite Hh in A2.
  assert (L : length rets = length (currentsBefore st0 during)).
  { unfold currentsBefore, during, presses.
    now rewrite length_map, length_removelast_cons, statesAfter_length,
      length_map. }
  destruct (retreats_spec rets reached [] (currentsBefore st0 during)
              A2 A3 A4 L) as [R1 R2].
  fold after in R1, R2.
  split; [exact A1|]. split; [exact R1|]. split; [exact R2|].
  rewrite last_map, R1. unfold currentsBefore.
  destruct during as [|s1 during'].
  - simpl. now subst reached.
  - change (removelast (st0 :: s1 :: during'))
      with (st0 :: removelast (s1 :: during')).
    cbn [map rev]. now rewrite last_last.
Qed.

Lemma advance_then_retreat_witness :
  let advs := [Sample.response "users" (Some "tokB");
               Sample.response "users" None] in
  let rets := [Sample.response "users" (Some "tokB");
               Sample.response "users" (Some "tokA")] in
  let during := statesAfter (presses Next advs) Sample.firstPage in
  let reached := List.last during Sample.firstPage in
  let after := statesAfter (presses Previous rets) reached in
  map currentPageState during = [Some "tokA"; Some "tokB"] /\
  map currentPageState after = [Some "tokA"; None] /\
  pageHistory (List.last after reached) = [] /\
  currentPageState (List.last after reached) = None.
Proof.
  apply (advance_then_retreat Sample.firstPage
           (Sample.page (Some "tokA")) ["tokA"; "tokB"]).
  - reflexivity.
  - reflexivity.
  - eexists; reflexivity.
  - reflexivity.
  - repeat constructor; discriminate.
  - reflexivity.
  - reflexivity.
Defined.

(** *** The reset paths *)

Lemma handlePageSizeChange_resets env newSize o :
  pageHistory (handlePageSizeChange env newSize o).2 = [].
Proof.
  unfold handlePageSizeChange. destruct (selectedTable env); [|reflexivity].
  unfold fetched. cbn [snd]. now rewrite fetch_pageHistory.
Qed.

Lemma applyServerSideFilters_resets env o :
  is_Some (selectedTable env) ->
  pageHistory (applyServerSideFilters env o).2 = [].
Proof.
  intros [sel Hs]. unfold applyServerSideFilters. rewrite Hs.
  unfold fetched. cbn [snd]. now rewrite fetch_pageHistory.
Qed.

Lemma clearServerSideFilters_resets env o :
  is_Some (selectedTable env) ->
  pageHistory (clearServerSideFilters env o).2 = [].
Proof.
  intros [sel Hs]. unfold clearServerSideFilters. rewrite Hs.
  unfold fetched. cbn [snd]. now rewrite fetch_pageHistory.
Qed.

(** A click on a table fetches its first page and leaves the history as
    it was. *)
Lemma onTableClick_pageHistory env k t o :
  pageHistory (onTableClick env k t o).2 = pageHistory env.
Proof.
  unfold onTableClick, fetched. cbn [snd]. apply fetch_pageHistory.
Qed.

(** C3, on the table switch.  On the third page of [shop.users] the
    history holds the start marker and the token of the second page.  A
    click on [shop.orders] shows the first page of that table with the
    history of [shop.users] still in place, and the next press of Previous
    asks [shop.orders] for the page at the token of [shop.users]. *)
Theorem table_switch_keeps_history :
  let switched :=
    onTableClick Sample.thirdPage "shop" "orders"
      (Resolved (Sample.response "orders" (Some "tokX"))) in
  let back :=
    handlePreviousPage switched.2
      (Resolved (Sample.response "orders" (Some "tokX"))) in
  pageHistory Sample.thirdPage = [""; "tokA"] /\
  currentPageState switched.2 = None /\
  pageHistory switched.2 = [""; "tokA"] /\
  map req_table back.1 = ["orders"] /\
  map (fun r => params r !! "page_state") back.1 = [Some (PStr "tokA")].
Proof. vm_compute. repeat split; reflexivity. Qed.

(** *** Previous on the first page *)

(** C4, as amended.  With an empty history a press of Previous does
    nothing: no request is issued and the state, its error included, is
    the state before. *)
Theorem previous_on_empty_history_is_noop (env : State) (o : Outcome) :
  pageHistory env = [] -> handlePreviousPage env o = ([], env).
Proof. intros H. unfold handlePreviousPage. now rewrite H. Qed.

Lemma previous_on_empty_history_is_noop_witness :
  handlePreviousPage Sample.firstPage
    (Resolved (Sample.response "users" None))
  = ([], Sample.firstPage).
Proof. apply previous_on_empty_history_is_noop. reflexivity. Defined.

(** C4, as stated, fails: on the first page of a table no error is
    surfaced, the press is silently dropped. *)
Lemma previous_on_first_page_is_silent :
  pageHistory Sample.firstPage = [] /\
  ~ Claimed.surfacesNoPriorPage Sample.firstPage
      (Resolved (Sample.response "users" None)) /\
  handlePreviousPage Sample.firstPage
    (Resolved (Sample.response "users" None))
  = ([], Sample.firstPage).
Proof.
  split; [reflexivity|]. split; [|reflexivity].
  intros [e H]. vm_compute in H. discriminate H.
Qed.

End CursorFacts.

(** ** The requests of [fetchTableData] *)

Module QueryFacts.
Import JsString JsStringFacts Js Http App FilterFacts CursorFacts.


Lemma params_allow_filtering env ps af :
  buildParams env ps af !! "allow_filtering"
  = if filterApplies env af then Some (PBool true) else None.
Proof.
  unfold buildParams. destruct (filterApplies env af); [|reflexivity].
  apply lookup_insert_eq.
Qed.

Lemma params_where_clause env ps af :
  buildParams env ps af !! "where_clause"
  = if filterApplies env af then Some (PStr (whereClause env af)) else None.
Proof.
  unfold buildParams. destruct (filterApplies env af); [|reflexivity].
  rewrite lookup_insert_ne by discriminate. apply lookup_insert_eq.
Qed.


Lemma sameFilter_filterApplies a b af :
  sameFilter a b -> filterApplies a af = filterApplies b af.
Proof. intros (H1 & H2 & H3). unfold filterApplies. now rewrite H1, H3. Qed.

Lemma sameFilter_whereClause a b af :
  sameFilter a b -> whereClause a af = whereClause b af.
Proof.
  intros H. unfold whereClause. rewrite (sameFilter_filterApplies a b af H).
  destruct H as (H1 & H2 & H3). now rewrite H1, H2, H3.
Qed.

(** C5.  The rows request carries [allow_filtering = true] exactly when
    a filter applies, that is when filters are requested and the column
    and the value are both non-empty, whatever the column and the
    operator; otherwise the key is absent, and so is the predicate. *)
Theorem full_scan_flag_iff_filter
    (env st : State) (k t : string) (ps : option string) (af : bool)
    (o : Outcome) :
  let r := (fetchTableData env k t ps af o st).1 in
  filterApplies env af
  = (af && negb (String.eqb (filterColumn env) "")
        && negb (String.eqb (filterValue env) "")) /\
  params r !! "allow_filtering"
  = (if filterApplies env af then Some (PBool true) else None) /\
  params r !! "where_clause"
  = (if filterApplies env af
     then Some (PStr (Filter.buildWhereClause
                        (filterColumn env) (filterOperator env)
                        (filterValue env)))
     else None).
Proof.
  cbn zeta. rewrite fetch_requests. cbn [buildRequests params].
  rewrite params_allow_filtering, params_where_clause.
  split; [|split; [reflexivity|]].
  - unfold filterApplies.
    now destruct (filterColumn env), (filterValue env).
  - unfold whereClause. now destruct (filterApplies env af).
Qed.

(** C6.  A filter with the operator CONTAINS on column [c] and value [v]
    compiles to the predicate [c LIKE '%v%'], with [allow_filtering]
    set. *)
Theorem contains_compiles_to_like
    (env st : State) (k t : string) (ps : option string) (o : Outcome) :
  filterOperator env = "CONTAINS" ->
  filterColumn env <> "" -> filterValue env <> "" ->
  let r := (fetchTableData env k t ps true o st).1 in
  params r !! "where_clause"
  = Some (PStr (filterColumn env +:+ " LIKE '%" +:+ filterValue env +:+ "%'"))
  /\ params r !! "allow_filtering" = Some (PBool true).
Proof.
  intros Hop Hc Hv. cbn zeta. rewrite fetch_requests.
  cbn [buildRequests params].
  rewrite params_allow_filtering, params_where_clause.
  unfold whereClause, filterApplies.
  apply truthy_true in Hc, Hv. rewrite Hc, Hv, Hop. auto.
Qed.

Lemma contains_compiles_to_like_witness :
  let env := Sample.withFilter "name" "CONTAINS" "ann" Sample.firstPage in
  let r :=
    (applyServerSideFilters env
       (Resolved (Sample.response "users" None))).1 in
  map (fun r => params r !! "where_clause") r
  = [Some (PStr "name LIKE '%ann%'")] /\
  map (fun r => params r !! "allow_filtering") r = [Some (PBool true)].
Proof.
  intros env r.
  destruct (contains_compiles_to_like env (setPageHistory [] env)
              "shop" "users" None
              (Resolved (Sample.response "users" None)))
    as [H1 H2]; [reflexivity | discriminate | discriminate |].
  split; [exact (f_equal (fun x => [x]) H1)|].
  exact (f_equal (fun x => [x]) H2).
Defined.


(** The query limit is none of the inputs. *)
Lemma setQueryLimit_sameInputs (st : State) (n : Z) :
  Claimed.sameInputs st (setQueryLimit n st).
Proof. repeat split. Qed.

(** C9, as amended.  The requests of [fetchTableData] are fixed by its
    arguments, the filter, the page size and the query limit: two calls
    that agree on these issue the same requests, whatever the rest of the
    state, the state being updated, and the way the requests settle. *)
Theorem requests_fixed_by_inputs_and_limit
    (env1 env2 st1 st2 : State) (k t : string) (ps : option string)
    (af : bool) (o1 o2 : Outcome) :
  Claimed.sameInputs env1 env2 -> queryLimit env1 = queryLimit env2 ->
  (fetchTableData env1 k t ps af o1 st1).1
  = (fetchTableData env2 k t ps af o2 st2).1.
Proof.
  intros [Hf Hp] Hq. rewrite !fetch_requests.
  unfold buildRequests, buildParams, buildCountParams.
  rewrite (sameFilter_filterApplies _ _ af Hf),
    (sameFilter_whereClause _ _ af Hf), Hp, Hq.
  destruct Hf as (_ & -> & _). reflexivity.
Qed.

Lemma requests_fixed_by_inputs_and_limit_witness :
  (fetchTableData Sample.firstPage "shop" "users" (Some "tokA") false
     (Rejected "timeout") Sample.firstPage).1
  = (fetchTableData Sample.thirdPage "shop" "users" (Some "tokA") false
       (Resolved (Sample.response "users" None)) Sample.thirdPage).1.
Proof.
  apply requests_fixed_by_inputs_and_limit.
  - repeat split; reflexivity.
  - reflexivity.
Defined.

(** C9, as stated, fails: the page size sent is capped by the query
    limit, a state variable of its own, so two states with the same
    filter and page size can issue different requests. *)
Lemma requests_depend_on_query_limit : ~ Claimed.dependsOnInputsOnly.
Proof.
  intros H.
  pose proof (H Sample.firstPage (setQueryLimit 10 Sample.firstPage)
                Sample.firstPage (setQueryLimit 10 Sample.firstPage)
                "shop" "users" None false
                (Resolved (Sample.response "users" None))
                (Resolved (Sample.response "users" None))
                (setQueryLimit_sameInputs Sample.firstPage 10)) as E.
  apply (f_equal (fun r => params r !! "page_size")) in E.
  vm_compute in E. discriminate E.
Qed.

(** *** Navigation under a filter *)











End QueryFacts.

(** ** The client-side sort *)

Module SortFacts.
Import JsString JsStringFacts Js Http App.

Section Insertion.
Context {A : Type} (comparefn : A -> A -> JSNumber).

Lemma insertSorted_perm (x : A) (l : list A) :
  insertSorted comparefn x l ≡ₚ x :: l.
Proof.
  induction l as [|y l IH]; simpl; [reflexivity|].
  destruct (ltZero (comparefn x y)); [reflexivity|].
  rewrite IH. apply Permutation_swap.
Qed.

Lemma fold_insert_perm (l acc : list A) :
  fold_left (fun acc x => insertSorted comparefn x acc) l acc ≡ₚ acc ++ l.
Proof.
  revert acc. induction l as [|x l IH]; intros acc; simpl.
  - now rewrite List.app_nil_r.
  - rewrite IH, insertSorted_perm. apply Permutation_middle.
Qed.

Lemma sort_perm (l : list A) : sort comparefn l ≡ₚ l.
Proof. unfold sort. now rewrite fold_insert_perm. Qed.

(** When "compares below" is a strict order, the sort leaves no element
    before one that it compares below. *)
Hypothesis below_irrefl : forall x, ltZero (comparefn x x) = false.
Hypothesis below_trans :
  forall x y z,
    ltZero (comparefn x y) = true -> ltZero (comparefn y z) = true ->
    ltZero (comparefn x z) = true.



End Insertion.

Section Rows.
Context `{Runtime} (column : string) (direction : SortDirection).

Local Abbreviation cmp := (compareRows column direction).


Lemma compareRows_null_r (a b : TableRow) :
  nullish column a = false -> nullish column b = true ->
  cmp a b = Finite (-1).
Proof. unfold cmp, compareRows, nullish. now intros -> ->. Qed.






(** Whatever the algorithm of the engine: in any arrangement of rows in
    which no row stands before one that it compares above, the rows
    without a value come last. *)
Lemma ordered_nulls_last (l : list TableRow) :
  ordered cmp l ->
  exists front back,
    l = front ++ back /\
    Forall (fun r => nullish column r = false) front /\
    Forall (fun r => nullish column r = true) back.
Proof.
  unfold ordered. induction 1 as [|x l Hl IH Hx].
  - exists [], []. repeat split; constructor.
  - destruct (nullish column x) eqn:Ex.
    + exists [], (x :: l). repeat split; [constructor|].
      constructor; [exact Ex|].
      eapply Forall_impl; [exact Hx|]. cbn. intros y Hy.
      destruct (nullish column y) eqn:Ey; [reflexivity|].
      now rewrite (compareRows_null_r y x Ey Ex) in Hy.
    + destruct IH as (front & back & -> & Hf & Hb).
      exists (x :: front), back. repeat split; [now constructor | exact Hb].
Qed.

End Rows.



(** The sample page by score, in both directions. *)
Example sorted_by_score_asc :
  map (fun r => r !! "name")
    (getSortedTableData (H := Sample.runtime)
       (setSortColumn "score" Sample.firstPage))
  = [Some (JStr "dee"); Some (JStr "bob"); Some (JStr "ann");
     Some (JStr "cyd")].
Proof. vm_compute. reflexivity. Qed.

Example sorted_by_score_desc :
  map (fun r => r !! "name")
    (getSortedTableData (H := Sample.runtime)
       (handleColumnSort (setSortColumn "score" Sample.firstPage) "score"))
  = [Some (JStr "bob"); Some (JStr "dee"); Some (JStr "ann");
     Some (JStr "cyd")].
Proof. vm_compute. reflexivity. Qed.

Example sorted_by_score_ordered :
  ordered (compareRows (H := Sample.runtime) "score" ASC)
    (getSortedTableData (H := Sample.runtime)
       (setSortColumn "score" Sample.firstPage)).
Proof.
  unfold ordered.
  match goal with
  | |- StronglySorted ?R ?l =>
      let l' := eval vm_compute in l in change (StronglySorted R l')
  end.
  repeat constructor.
Qed.

End SortFacts.

(** ** The query box and the page indicator *)

Module DisplayFacts.
Import JsString JsStringFacts Http App Display CursorFacts.

Lemma prefix_app (t u : string) : String.prefix t (t +:+ u) = true.
Proof.
  induction t as [|a t IH]; [now destruct u|].
  change (String a t +:+ u) with (String a (t +:+ u)).
  simpl. now destruct (ascii_dec a a).
Qed.

Lemma prefix_app_l (t s u : string) :
  String.prefix t s = true -> String.prefix t (s +:+ u) = true.
Proof.
  revert s. induction t as [|a t IH]; intros s H.
  - now destruct (s +:+ u).
  - destruct s as [|b s]; [discriminate H|].
    change (String b s +:+ u) with (String b (s +:+ u)).
    simpl in *. destruct (ascii_dec a b); [auto | discriminate H].
Qed.

Lemma includes_unfold (t s : string) :
  includes t s
  = String.prefix t s
    || match s with
       | "" => false
       | String _ s' => includes t s'
       end.
Proof. now destruct s. Qed.

Lemma includes_app_l (t s u : string) :
  includes t s = true -> includes t (s +:+ u) = true.
Proof.
  induction s as [|c s IH]; intros H.
  - rewrite includes_unfold in H. rewrite orb_false_r in H.
    rewrite includes_unfold. apply orb_true_intro. left.
    now apply prefix_app_l.
  - rewrite includes_unfold in H.
    change (String c s +:+ u) with (String c (s +:+ u)).
    rewrite includes_unfold. apply orb_true_intro.
    apply orb_prop in H as [H|H]; [left | right; auto].
    now apply (prefix_app_l t (String c s) u).
Qed.

Lemma includes_app_r (t s u : string) :
  includes t u = true -> includes t (s +:+ u) = true.
Proof.
  intros H. induction s as [|c s IH]; [exact H|].
  change (String c s +:+ u) with (String c (s +:+ u)).
  rewrite includes_unfold, IH. apply orb_true_r.
Qed.

Lemma endsWithChar_snoc (c : ascii) (s : string) :
  endsWithChar c (s +:+ String c "") = true.
Proof.
  induction s as [|d s IH]; [simpl; apply Ascii.eqb_refl|].
  change (String d s +:+ String c "") with (String d (s +:+ String c "")).
  destruct (s +:+ String c "") eqn:E; [now destruct s|].
  exact IH.
Qed.

Lemma append_assoc (s t u : string) : (s +:+ t) +:+ u = s +:+ (t +:+ u).
Proof. induction s as [|c s IH]; simpl; [reflexivity | now rewrite IH]. Qed.

(** X1.  Whatever the server echoes, the text put in the query box holds
    the word LIMIT and ends with a semicolon; an echoed statement that
    already holds the word is shown as it is, and any other echoed
    statement gets the page size that was requested as its limit. *)
Theorem query_box_has_limit
    (env : State) (k t : string) (q : option string) :
  let text := cqlQuery env k t q in
  let n := numberToString (Z.min (pageSize env) (queryLimit env)) in
  includes "LIMIT" text = true /\
  endsWithChar ";" text = true /\
  (forall e, q = Some e -> includes "LIMIT" e = true -> text = e +:+ ";") /\
  (forall e, q = Some e -> e <> "" -> includes "LIMIT" e = false ->
             text = e +:+ " LIMIT " +:+ n +:+ ";").
Proof.
  intros text n. unfold text, cqlQuery. fold n.
  set (base := match or_null q with
               | Some q0 => q0
               | None => "SELECT * FROM " +:+ k +:+ "." +:+ t
               end).
  split; [|split; [apply endsWithChar_snoc|split]].
  - destruct (includes "LIMIT" base) eqn:E; cbn [negb].
    + now apply includes_app_l.
    + apply includes_app_l, includes_app_r, includes_app_l. reflexivity.
  - intros e -> He. subst base. destruct e as [|c e]; [discriminate He|].
    cbn [or_null truthy]. now rewrite He.
  - intros e -> Hne He. subst base. destruct e as [|c e]; [congruence|].
    cbn [or_null truthy]. rewrite He. cbn [negb].
    now rewrite !append_assoc.
Qed.

(** The scenarios of the query box. *)
Example query_box_fallback :
  cqlQuery Sample.firstPage "shop" "users" None
  = "SELECT * FROM shop.users LIMIT 50;".
Proof. reflexivity. Qed.

Example query_box_echo :
  cqlQuery Sample.firstPage "shop" "users"
    (Some "SELECT * FROM shop.users WHERE id = 7 LIMIT 20")
  = "SELECT * FROM shop.users WHERE id = 7 LIMIT 20;".
Proof. reflexivity. Qed.

(** X2.  For a page size above 0 the page total of the indicator is the
    least number of pages of that size that hold all the rows counted. *)
Theorem total_pages_cover_the_count (rowCount pageSize : Z) :
  0 < pageSize ->
  exists p,
    totalPages rowCount pageSize = Some p /\
    (p - 1) * pageSize < rowCount <= p * pageSize.
Proof.
  intros Hp. unfold totalPages.
  destruct (Z.eqb_spec pageSize 0) as [->|_]; [lia|].
  eexists. split; [reflexivity|].
  destruct pageSize as [|d|d]; try lia.
  unfold Qceiling, Qfloor, Qdiv, Qinv, Qmult, Qopp, inject_Z.
  cbn [Qnum Qden]. rewrite Z.mul_1_r, Pos.mul_1_l.
  pose proof (Z.mul_div_le (- rowCount) (Z.pos d) ltac:(lia)).
  pose proof (Z.mul_succ_div_gt (- rowCount) (Z.pos d) ltac:(lia)).
  nia.
Qed.

Lemma total_pages_cover_the_count_witness :
  exists p,
    totalPages 120 50 = Some p /\ (p - 1) * 50 < 120 <= p * 50.
Proof. apply total_pages_cover_the_count. lia. Defined.

(** X3.  The page number of the indicator counts the presses, not the
    pages fetched: a press of Next that starts a fetch raises it by one
    and a press of Previous that starts one lowers it by one, whether the
    fetch resolves or fails; a press that starts no fetch leaves the whole
    state as it was. *)
Theorem page_number_counts_presses (ev : Nav) (env : State) (o : Outcome) :
  match (navigate ev env o).1 with
  | [] => (navigate ev env o).2 = env
  | _ :: _ =>
      pageNumber (navigate ev env o).2
      = pageNumber env + match ev with Next => 1 | Previous => -1 end
  end.
Proof.
  unfold pageNumber.
  destruct ev; unfold navigate, handleNextPage, handlePreviousPage.
  - destruct (tableData env) as [data|], (selectedTable env) as [sel|];
      try reflexivity.
    destruct (truthy_opt (next_page_state data)); [|reflexivity].
    unfold fetched. cbn [fst snd]. rewrite fetch_pageHistory.
    cbn [pageHistory setPageHistory]. rewrite length_app. cbn [length]. lia.
  - destruct (pageHistory env) as [|x h] eqn:E,
      (selectedTable env) as [sel|]; try reflexivity.
    unfold fetched. cbn [fst snd]. rewrite fetch_pageHistory.
    cbn [pageHistory setPageHistory]. rewrite <- E.
    assert (L : length (removelast (pageHistory env))
                = (length (pageHistory env) - 1)%nat).
    { rewrite E. rewrite length_removelast_cons. simpl. lia. }
    rewrite L, E. simpl length. lia.
Qed.

End DisplayFacts.

(** ** What navigation keeps and what it resets *)

Module NavigationFacts.
Import JsString JsStringFacts Http App CursorFacts QueryFacts.

Lemma params_page_state env ps af :
  buildParams env ps af !! "page_state"
  = Some (match or_null ps with
          | Some t => PStr t
          | None => PUndefined
          end).
Proof.
  unfold buildParams. destruct (filterApplies env af); [|reflexivity].
  destruct (String.eqb (filterOperator env) "CONTAINS");
    rewrite !lookup_insert_ne by discriminate; reflexivity.
Qed.

Lemma params_page_size env ps af :
  buildParams env ps af !! "page_size"
  = Some (PNum (Z.min (pageSize env) (queryLimit env))).
Proof.
  unfold buildParams. destruct (filterApplies env af); [|reflexivity].
  destruct (String.eqb (filterOperator env) "CONTAINS");
    rewrite !lookup_insert_ne by discriminate; reflexivity.
Qed.

Lemma fetch_keeps_sort env k t ps o st :
  sortColumn (fetchTableData env k t ps true o st).2 = sortColumn st /\
  sortDirection (fetchTableData env k t ps true o st).2 = sortDirection st.
Proof.
  unfold fetchTableData. destruct o as [r|m]; cbn [snd negb].
  - rewrite andb_false_r. split; reflexivity.
  - split; reflexivity.
Qed.

Lemma fetch_token_keeps env k t ps af o st :
  truthy_opt ps = true ->
  let st' := (fetchTableData env k t ps af o st).2 in
  sameFilter st' st /\
  sortColumn st' = sortColumn st /\ sortDirection st' = sortDirection st.
Proof.
  intros Hps. unfold fetchTableData. destruct o as [r|m]; cbn [snd].
  - rewrite Hps. cbn [negb andb]. repeat split.
  - repeat split.
Qed.

(** X4.  A press of Next never touches the filter fields or the sort,
    however its fetch settles.  A press of Previous keeps them too, except
    when it goes back to the first page while the filter lacks a column or
    a value and the fetch resolves: the filter fields and the sort are then
    put back to their first values. *)
Theorem navigation_keeps_or_resets_view (env : State) (o : Outcome) :
  (let st := (handleNextPage env o).2 in
   sameFilter st env /\
   sortColumn st = sortColumn env /\ sortDirection st = sortDirection env)
  /\
  (let st := (handlePreviousPage env o).2 in
   let resets :=
     match (handlePreviousPage env o).1, o with
     | _ :: _, Resolved _ =>
         negb (truthy_opt (or_null (last (pageHistory env))))
         && negb (truthy (filterColumn env) && truthy (filterValue env))
     | _, _ => false
     end in
   if resets then
     filterColumn st = "" /\ filterOperator st = "=" /\ filterValue st = ""
     /\ sortColumn st = "" /\ sortDirection st = ASC
   else
     sameFilter st env /\
     sortColumn st = sortColumn env /\ sortDirection st = sortDirection env).
Proof.
  split.
  - unfold handleNextPage.
    destruct (tableData env) as [data|], (selectedTable env) as [sel|];
      try (repeat split; reflexivity).
    destruct (truthy_opt (next_page_state data)) eqn:Ht;
      [|repeat split; reflexivity].
    unfold fetched. cbn [snd].
    destruct (fetch_token_keeps env (keyspace sel) (table sel)
                (next_page_state data)
                (truthy (filterColumn env) && truthy (filterValue env)) o
                (setPageHistory
                   (pageHistory env ++ [or_empty (currentPageState env)])
                   env) Ht) as (F & C & D).
    split; [|split]; assumption.
  - unfold handlePreviousPage.
    destruct (pageHistory env) as [|x h] eqn:E,
      (selectedTable env) as [sel|]; try (repeat split; reflexivity).
    rewrite <- E. unfold fetched. cbn [fst snd].
    set (prev := or_null (last (pageHistory env))).
    set (hasFilters := truthy (filterColumn env) && truthy (filterValue env)).
    destruct o as [r|m]; cbv zeta; cbv beta iota.
    + unfold fetchTableData. cbn [snd].
      destruct (negb (truthy_opt prev) && negb hasFilters);
        repeat split; reflexivity.
    + repeat split; reflexivity.
Qed.

(** X5.  A press of Next whose fetch fails leaves the page, its count and
    the current token as they were, although the history has grown.  A
    press of Previous after it asks again for the page on display and,
    once that fetch resolves, the history and the current token are those
    from before the failed press. *)
Theorem failed_next_is_undone_by_previous
    (env : State) (m : string) (r : Responses) :
  plainToken (currentPageState env) ->
  (handleNextPage env (Rejected m)).1 <> [] ->
  let failed := (handleNextPage env (Rejected m)).2 in
  let back := handlePreviousPage failed (Resolved r) in
  tableData failed = tableData env /\
  rowCount failed = rowCount env /\
  currentPageState failed = currentPageState env /\
  error failed = Some m /\
  pageHistory failed = pageHistory env ++ [or_empty (currentPageState env)] /\
  map (fun q => params q !! "page_state") back.1
  = [Some (match currentPageState env with
           | Some t => PStr t
           | None => PUndefined
           end)] /\
  pageHistory back.2 = pageHistory env /\
  currentPageState back.2 = currentPageState env.
Proof.
  intros Hplain Hfired failed back.
  assert (F : failed
              = setLoading false
                  (setError (Some m)
                     (setError None
                        (setLoading true
                           (setPageHistory
                              (pageHistory env
                               ++ [or_empty (currentPageState env)])
                              env)))) /\ is_Some (selectedTable env)).
  { unfold failed, handleNextPage in *.
    destruct (tableData env) as [data|], (selectedTable env) as [sel|];
      try now contradiction Hfired.
    destruct (truthy_opt (next_page_state data));
      [|now contradiction Hfired].
    split; [reflexivity | eauto]. }
  destruct F as [F Hsel].
  assert (Hh : pageHistory failed
               = pageHistory env ++ [or_empty (currentPageState env)])
    by now rewrite F.
  assert (Hs : is_Some (selectedTable failed)) by now rewrite F.
  destruct (previous_resolved failed _ _ r Hh Hs) as (P1 & P2 & _).
  rewrite (or_null_or_empty _ Hplain) in P2.
  do 4 (split; [now rewrite F|]).
  split; [exact Hh|]. split; [|split; [exact P1 | exact P2]].
  unfold back, handlePreviousPage. rewrite Hh.
  destruct Hs as [sel Hs]. rewrite Hs.
  destruct (pageHistory env ++ [or_empty (currentPageState env)]) eqn:E;
    [now destruct (pageHistory env)|].
  rewrite <- E. unfold fetched. cbn [fst map]. rewrite fetch_requests.
  cbn [buildRequests params].
  rewrite params_page_state, last_snoc, (or_null_or_empty _ Hplain).
  assert (Ht : or_null (currentPageState env) = currentPageState env).
  { destruct (currentPageState env) as [[|c t]|];
      [now contradiction Hplain | reflexivity | reflexivity]. }
  now rewrite Ht.
Qed.

Lemma failed_next_is_undone_by_previous_witness :
  let failed := (handleNextPage Sample.firstPage (Rejected "timeout")).2 in
  let back :=
    handlePreviousPage failed (Resolved (Sample.response "users" None)) in
  pageHistory failed = [""] /\
  map (fun q => params q !! "page_state") back.1 = [Some PUndefined] /\
  pageHistory back.2 = [] /\ currentPageState back.2 = None.
Proof.
  destruct (failed_next_is_undone_by_previous Sample.firstPage "timeout"
              (Sample.response "users" None))
    as (_ & _ & _ & _ & H5 & H6 & H7 & H8); [exact I | discriminate |].
  repeat split; assumption.
Defined.

(** X6.  A click on the header of the sorted column turns the direction
    round, so that two clicks leave the state as it was; a click on any
    other header sorts by that column, ascending, whatever the direction
    was. *)
Theorem column_sort_toggles (env : State) (c : string) :
  (sortColumn env = c -> handleColumnSort (handleColumnSort env c) c = env)
  /\
  (sortColumn env <> c ->
   sortColumn (handleColumnSort env c) = c /\
   sortDirection (handleColumnSort env c) = ASC /\
   sortDirection (handleColumnSort (handleColumnSort env c) c) = DESC).
Proof.
  split.
  - intros <-. unfold handleColumnSort.
    rewrite String.eqb_refl. cbn [sortColumn setSortDirection].
    rewrite String.eqb_refl. destruct env as [? ? ? ? ? ? ? ? ? ? ? ? ? d].
    now destruct d.
  - intros Hne. unfold handleColumnSort.
    apply String.eqb_neq in Hne. rewrite Hne.
    cbn [sortColumn sortDirection setSortDirection setSortColumn].
    now rewrite String.eqb_refl.
Qed.

(** X7.  A change of the page size asks for the first page with the page
    size of before, capped by the query limit, and with no predicate,
    whatever the filter holds; the state it leaves has the new size and an
    empty history, and once the fetch resolves the filter fields are
    empty. *)
Theorem page_size_change_fetches_with_old_size
    (env : State) (newSize : Z) (o : Outcome) :
  is_Some (selectedTable env) ->
  let step := handlePageSizeChange env newSize o in
  map (fun q => params q !! "page_size") step.1
  = [Some (PNum (Z.min (pageSize env) (queryLimit env)))] /\
  map (fun q => params q !! "page_state") step.1 = [Some PUndefined] /\
  map (fun q => params q !! "where_clause") step.1 = [None] /\
  pageSize step.2 = newSize /\
  pageHistory step.2 = [] /\
  (forall r, o = Resolved r ->
             filterColumn step.2 = "" /\ filterValue step.2 = "").
Proof.
  intros [sel Hs] step. unfold step, handlePageSizeChange. rewrite Hs.
  unfold fetched. cbn [fst snd map]. rewrite fetch_requests, fetch_pageHistory.
  cbn [buildRequests params].
  rewrite params_page_size, params_page_state, params_where_clause.
  repeat split; try reflexivity.
  - unfold fetchTableData. destruct o as [r|m]; reflexivity.
  - subst o. reflexivity.
  - subst o. reflexivity.
Qed.

Lemma page_size_change_fetches_with_old_size_witness :
  let env := Sample.withFilter "name" "=" "ann" Sample.thirdPage in
  let step :=
    handlePageSizeChange env 100 (Resolved (Sample.response "users" None)) in
  map (fun q => params q !! "page_size") step.1 = [Some (PNum 50)] /\
  pageSize step.2 = 100 /\ filterColumn step.2 = "".
Proof.
  intros env step.
  destruct (page_size_change_fetches_with_old_size env 100
              (Resolved (Sample.response "users" None)))
    as (H1 & _ & _ & H4 & _ & H6); [eexists; reflexivity|].
  split; [exact H1|]. split; [exact H4|].
  exact (proj1 (H6 _ eq_refl)).
Defined.

End NavigationFacts.

(** ** The "Max results" input *)

Module LimitFacts.
Import JsString App Display Limit.

Ltac read_digit :=
  cbn [readDigits];
  match goal with
  | |- context [digitValue ?c] =>
      let v := eval vm_compute in (digitValue c) in
      change (digitValue c) with v
  end;
  cbv beta iota;
  match goal with
  | |- context [(?k <? ?R)] =>
      let b := eval vm_compute in (k <? R) in
      change (k <? R) with b
  end;
  cbv beta iota.

(** The digits of a numeral, read on top of a positive number. *)
Lemma readDigits_acc (d : Decimal.uint) :
  forall p : positive,
    readDigits 10 (NilEmpty.string_of_uint d) (Z.pos p) true
    = Some (Z.pos (Pos.of_uint_acc d p)).
Proof.
  induction d; intros p; cbn [NilEmpty.string_of_uint Pos.of_uint_acc];
    [reflexivity|..];
    read_digit;
    match goal with
    | |- readDigits _ _ ?a _ = Some (Z.pos (Pos.of_uint_acc _ ?q)) =>
        replace a with (Z.pos q) by lia
    end; apply IHd.
Qed.

(** A numeral read from the start. *)
Lemma readDigits_start (d : Decimal.uint) (seen : bool) :
  d <> Decimal.Nil \/ seen = true ->
  readDigits 10 (NilEmpty.string_of_uint d) 0 seen
  = Some (Z.of_N (Pos.of_uint d)).
Proof.
  revert seen. induction d; intros seen H;
    cbn [NilEmpty.string_of_uint Pos.of_uint].
  - destruct H as [H| ->]; [congruence | reflexivity].
  - read_digit. change (0 * 10 + 0) with 0. apply IHd. now right.
  - read_digit. apply (readDigits_acc d 1).
  - read_digit. apply (readDigits_acc d 2).
  - read_digit. apply (readDigits_acc d 3).
  - read_digit. apply (readDigits_acc d 4).
  - read_digit. apply (readDigits_acc d 5).
  - read_digit. apply (readDigits_acc d 6).
  - read_digit. apply (readDigits_acc d 7).
  - read_digit. apply (readDigits_acc d 8).
  - read_digit. apply (readDigits_acc d 9).
Qed.

Lemma option_map_mul_1 (o : option Z) : option_map (Z.mul 1) o = o.
Proof. destruct o as [z|]; [|reflexivity]. simpl. f_equal. now destruct z. Qed.

Ltac skip_space :=
  cbn [trimStart];
  match goal with
  | |- context [isWhiteSpace ?c] =>
      let v := eval vm_compute in (isWhiteSpace c) in
      change (isWhiteSpace c) with v
  end;
  cbv beta iota.

Ltac parse_numeral :=
  unfold parseInt; cbn [NilEmpty.string_of_uint]; skip_space;
  apply option_map_mul_1.

(** [parseInt] reads a decimal numeral as the number it denotes. *)
Lemma parseInt_numeral (d : Decimal.uint) :
  d <> Decimal.Nil ->
  parseInt (NilEmpty.string_of_uint d) = Some (Z.of_N (Pos.of_uint d)).
Proof.
  intros Hd. rewrite <- (readDigits_start d false) by now left.
  destruct d as [|d|d|d|d|d|d|d|d|d|d]; [congruence|..];
    try parse_numeral.
  destruct d; [reflexivity|..]; parse_numeral.
Qed.

Lemma to_uint_not_nil (p : positive) : Pos.to_uint p <> Decimal.Nil.
Proof.
  intros E. pose proof (DecimalPos.Unsigned.of_to p) as H.
  rewrite E in H. discriminate H.
Qed.

(** A minus sign before a digit negates what is read. *)
Lemma parseInt_minus (c : ascii) (s : string) :
  Regex.isDigit c = true ->
  parseInt (String "-" (String c s)) = option_map Z.opp (parseInt (String c s)).
Proof.
  intros Hc.
  destruct c as [[] [] [] [] [] [] [] []]; try discriminate Hc;
    unfold parseInt; skip_space; skip_space;
    try match goal with
        | |- (let (_, _) := ?m in _) = _ => destruct m
        end;
    match goal with
    | |- option_map _ ?X = option_map _ (option_map _ ?X) =>
        destruct X as [v|]; [|reflexivity]
    end;
    cbn [option_map]; f_equal; lia.
Qed.

Lemma numeral_starts_with_digit (d : Decimal.uint) :
  d <> Decimal.Nil ->
  exists c s, NilEmpty.string_of_uint d = String c s /\ Regex.isDigit c = true.
Proof.
  destruct d; [congruence|..]; intros _;
    cbn [NilEmpty.string_of_uint]; eauto.
Qed.

(** [parseInt] undoes the printing of a whole number. *)
Lemma parseInt_numberToString (n : Z) : parseInt (numberToString n) = Some n.
Proof.
  unfold numberToString. destruct n as [|p|p]; [reflexivity|..];
    cbn [Z.to_int NilZero.string_of_int]; unfold NilZero.string_of_uint;
    pose proof (to_uint_not_nil p) as Hp;
    pose proof (parseInt_numeral (Pos.to_uint p) Hp) as H;
    rewrite DecimalPos.Unsigned.of_to in H.
  - destruct (Pos.to_uint p); [congruence|..]; exact H.
  - destruct (numeral_starts_with_digit _ Hp) as (c & s & E & Hc).
    assert (K : parseInt (String "-" (NilEmpty.string_of_uint (Pos.to_uint p)))
                = Some (Z.neg p)).
    { rewrite E in *. now rewrite (parseInt_minus c s Hc), H. }
    destruct (Pos.to_uint p); [congruence|..]; exact K.
Qed.

(** X8.  Whatever is typed into the "Max results" field, the limit kept
    is at least 1.  A field that [parseInt] cannot read, such as an empty
    one, gives 1000, and so does the numeral 0; the numeral of a positive
    whole number gives that number, and the numeral of a negative one
    gives 1.  The numerals are those of the whole numbers up to 2^53,
    which the engine holds exactly. *)
Theorem query_limit_input (value : string) (st : State) :
  1 <= queryLimit (onQueryLimitChange value st) /\
  (parseInt value = None -> queryLimit (onQueryLimitChange value st) = 1000)
  /\
  (forall n : Z,
     Z.abs n <= 2 ^ 53 ->
     queryLimit (onQueryLimitChange (numberToString n) st)
     = if 0 <? n then n else if n =? 0 then 1000 else 1).
Proof.
  unfold onQueryLimitChange. cbn [queryLimit setQueryLimit].
  split; [lia|]. split.
  - now intros ->.
  - intros n _. rewrite parseInt_numberToString.
    destruct (Z.eqb_spec n 0), (Z.ltb_spec 0 n); lia.
Qed.

Example parseInt_edges :
  map parseInt ["42"; "  42"; "-7"; "+7"; "12.5"; "1e3"; "0x1F"; "12px";
                ""; "abc"; "-"; "0x"; "- 5"]
  = [Some 42; Some 42; Some (-7); Some 7; Some 12; Some 1; Some 31; Some 12;
     None; None; None; None; None].
Proof. reflexivity. Qed.

End LimitFacts.

(** ** Row selection, deletion and editing *)

Module EditorFacts.
Import JsString Js Http App Editor Reach.

Lemma elem_of_filter_other (l : list nat) (index i : nat) :
  i ∈ List.filter (fun j => negb (Nat.eqb j index)) l
  <-> i ∈ l /\ i <> index.
Proof.
  rewrite !list_elem_of_In, List.filter_In.
  destruct (Nat.eqb_spec i index); cbn; intuition congruence.
Qed.

Lemma NoDup_filter_other (l : list nat) (index : nat) :
  NoDup l -> NoDup (List.filter (fun j => negb (Nat.eqb j index)) l).
Proof.
  induction 1 as [|x l Hx _ IH]; cbn; [constructor|].
  destruct (negb (x =? index)%nat); [|exact IH].
  constructor; [|exact IH].
  rewrite elem_of_filter_other. tauto.
Qed.

(** X9.  A click on the check box of a row changes the tick of that row
    and of no other: the row is ticked after the click exactly when it
    was not before, every other row keeps its state, no row is ticked
    twice, and nothing but the selection changes. *)
Theorem toggle_row_flips_one (env : Full) (index : nat) :
  NoDup (selectedRows env) ->
  let st := toggleRowSelection env index in
  NoDup (selectedRows st) /\
  (index ∈ selectedRows st <-> index ∉ selectedRows env) /\
  (forall i, i <> index -> i ∈ selectedRows st <-> i ∈ selectedRows env) /\
  app st = app env /\ editingRow st = editingRow env.
Proof.
  intros ND st. subst st. unfold toggleRowSelection.
  cbn [selectedRows setSelectedRows app editingRow].
  case_bool_decide as Hin.
  - split; [now apply NoDup_filter_other|].
    split; [rewrite elem_of_filter_other; tauto|].
    split; [|tauto].
    intros i Hi. rewrite elem_of_filter_other. tauto.
  - split.
    { apply NoDup_app. repeat split; [exact ND| |apply NoDup_singleton].
      intros x Hx ->%list_elem_of_singleton. tauto. }
    split; [rewrite elem_of_app, list_elem_of_singleton; tauto|].
    split; [|tauto].
    intros i Hi. rewrite elem_of_app, list_elem_of_singleton. tauto.
Qed.

Lemma toggle_row_flips_one_witness :
  let st := toggleRowSelection Cases.ticked 1 in
  NoDup (selectedRows st) /\
  (1%nat ∈ selectedRows st <-> 1%nat ∉ selectedRows Cases.ticked) /\
  (forall i, i <> 1%nat ->
     i ∈ selectedRows st <-> i ∈ selectedRows Cases.ticked) /\
  app st = app Cases.ticked /\ editingRow st = editingRow Cases.ticked.
Proof.
  apply (toggle_row_flips_one Cases.ticked 1).
  apply (bool_decide_unpack _). vm_compute. exact I.
Defined.

(** The ticked rows are all the rows on display exactly when there are as
    many of them as rows. *)
Lemma all_ticked_iff_size (l : list nat) (n : nat) :
  NoDup l -> Forall (fun i => (i < n)%nat) l ->
  length l = n <-> forall i, (i < n)%nat -> i ∈ l.
Proof.
  intros ND%NoDup_ListNoDup Hr. rewrite Forall_forall in Hr.
  assert (Hin : List.incl l (seq 0 n)).
  { intros i Hi. apply List.in_seq. apply list_elem_of_In, Hr in Hi. lia. }
  split.
  - intros Hlen i Hi. apply list_elem_of_In.
    apply (List.NoDup_length_incl ND (l' := seq 0 n)); [|exact Hin|].
    + rewrite length_seq. lia.
    + apply List.in_seq. lia.
  - intros Hall.
    assert (Hni : List.incl (seq 0 n) l).
    { intros i Hi%List.in_seq. apply list_elem_of_In, Hall. lia. }
    pose proof (List.NoDup_incl_length ND Hin) as H1.
    pose proof (List.NoDup_incl_length (List.seq_NoDup n 0) Hni) as H2.
    rewrite length_seq in H1, H2. lia.
Qed.

(** X10.  The check box of the header, when the ticked rows are distinct
    rows of the page on display: with every row ticked it clears the
    selection, and with a row unticked it ticks every row, in page
    order. *)
Theorem select_all_ticks_all_or_none (env : Full) :
  NoDup (selectedRows env) ->
  Forall (fun i => (i < rowsShown env)%nat) (selectedRows env) ->
  let st := toggleSelectAll env in
  ((forall i, (i < rowsShown env)%nat -> i ∈ selectedRows env) ->
   selectedRows st = []) /\
  ((exists i, (i < rowsShown env)%nat /\ i ∉ selectedRows env) ->
   selectedRows st = seq 0 (rowsShown env)) /\
  app st = app env.
Proof.
  intros ND Hr st. subst st.
  pose proof (all_ticked_iff_size _ _ ND Hr) as Hsize.
  revert Hsize. unfold toggleSelectAll, rowsShown.
  destruct (tableData (app env)) as [data|]; intros Hsize.
  - destruct (Nat.eqb_spec (length (selectedRows env)) (length (rows data)))
      as [E|E]; cbn [selectedRows setSelectedRows app].
    + split; [reflexivity|]. split; [|reflexivity].
      intros (i & Hi & Hn). destruct Hn. now apply Hsize.
    + split; [|now split]. intros Hall. now apply Hsize in Hall.
  - cbn [selectedRows setSelectedRows app].
    split; [reflexivity|]. split; [|reflexivity].
    intros (i & Hi & _). lia.
Qed.

Lemma select_all_ticks_all_or_none_witness :
  let st := toggleSelectAll Cases.ticked in
  ((forall i, (i < rowsShown Cases.ticked)%nat ->
      i ∈ selectedRows Cases.ticked) ->
   selectedRows st = []) /\
  ((exists i, (i < rowsShown Cases.ticked)%nat
              /\ i ∉ selectedRows Cases.ticked) ->
   selectedRows st = seq 0 (rowsShown Cases.ticked)) /\
  app st = app Cases.ticked.
Proof.
  apply (select_all_ticks_all_or_none Cases.ticked).
  - apply (bool_decide_unpack _). vm_compute. exact I.
  - apply (bool_decide_unpack _). vm_compute. exact I.
Defined.

(** The key object built from a row holds the primary key columns and
    nothing else, each with the value that the row has there. *)
Lemma fold_keys_lookup (r : TableRow) (keys : list string) (m : KeyObject)
    (key : string) :
  fold_left (fun pk k => <[k := r !! k]> pk) keys m !! key
  = if bool_decide (key ∈ keys) then Some (r !! key) else m !! key.
Proof.
  revert m. induction keys as [|k keys IH]; intros m; cbn [fold_left].
  - now rewrite bool_decide_eq_false_2 by apply not_elem_of_nil.
  - rewrite IH. destruct (decide (key = k)) as [->|Hne].
    + rewrite lookup_insert_eq.
      rewrite (bool_decide_eq_true_2 (k ∈ k :: keys))
        by apply list_elem_of_here.
      now case_bool_decide.
    + rewrite lookup_insert_ne by congruence.
      repeat case_bool_decide; try reflexivity;
        rewrite elem_of_cons in *; tauto.
Qed.

Lemma keyObject_lookup (keys : list string) (row : TableRow) (pk : KeyObject)
    (key : string) :
  keyObject keys (Some row) = Some pk ->
  pk !! key = if bool_decide (key ∈ keys) then Some (row !! key) else None.
Proof.
  assert (E : keyObject keys (Some row)
              = Some (fold_left (fun pk k => <[k := row !! k]> pk) keys ∅))
    by now destruct keys.
  rewrite E. intros [= <-]. now rewrite fold_keys_lookup, lookup_empty.
Qed.

Lemma keyObject_is_Some (keys : list string) (row : TableRow) :
  is_Some (keyObject keys (Some row)).
Proof. destruct keys; cbn; eauto. Qed.

(** X11.  With a table open and the ticked rows all on the page, a
    confirmed delete sends one key object for each ticked row, in the
    order the rows were ticked; the object of a row holds exactly the
    partition and clustering key columns, with the values of the row at
    that index of the page as the server sent it. *)
Theorem delete_sends_keys_of_ticked_rows `{Engine}
    (env : Full) (settled : Settled) (outcome : Outcome)
    (selected : TableSchema) (data : PaginatedData) :
  selectedTable (app env) = Some selected ->
  tableData (app env) = Some data ->
  selectedRows env <> [] ->
  Forall (fun i => (i < length (rows data))%nat) (selectedRows env) ->
  exists payload,
    head (deleteSelectedRows env settled outcome).1
    = Some (DeleteRows (keyspace selected) (table selected) payload) /\
    length payload = length (selectedRows env) /\
    forall j idx, selectedRows env !! j = Some idx ->
      exists row pk,
        rows data !! idx = Some row /\ payload !! j = Some pk /\
        forall key,
          pk !! key = if bool_decide (key ∈ primaryKeys selected)
                      then Some (row !! key) else None.
Proof.
  intros Hsel Hdata Hne Hrange.
  assert (Hsome : is_Some (deletePayload (Some data) (primaryKeys selected)
                             (selectedRows env))).
  { cbn [deletePayload]. apply mapM_is_Some.
    eapply Forall_impl; [exact Hrange|]. intros idx Hidx. cbn.
    destruct (lookup_lt_is_Some_2 (rows data) idx Hidx) as [row ->].
    apply keyObject_is_Some. }
  destruct Hsome as [payload Hp]. exists payload.
  unfold deleteSelectedRows. rewrite Hsel, Hdata, Hp.
  destruct (selectedRows env) as [|i0 sel] eqn:Esel; [congruence|].
  split; [now destruct settled|].
  cbn [deletePayload] in Hp. apply mapM_Some in Hp.
  split; [symmetry; eapply Forall2_length; exact Hp|].
  intros j idx Hj.
  destruct (Forall2_lookup_l _ _ _ _ _ Hp Hj) as (pk & Hpk & Hkey).
  rewrite Forall_forall in Hrange.
  assert (Hidx : (idx < length (rows data))%nat).
  { apply Hrange. eapply list_elem_of_lookup_2. exact Hj. }
  destruct (lookup_lt_is_Some_2 (rows data) idx Hidx) as [row Hrow].
  exists row, pk. split; [exact Hrow|]. split; [exact Hpk|].
  intros key. rewrite Hrow in Hkey. now apply keyObject_lookup.
Qed.

Lemma delete_sends_keys_of_ticked_rows_witness :
  exists payload,
    head (deleteSelectedRows (H := Cases.engine)
            Cases.ticked Fulfilled Cases.listing).1
    = Some (DeleteRows "shop" "users" payload) /\
    length payload = 2%nat /\
    forall j idx, selectedRows Cases.ticked !! j = Some idx ->
      exists row pk,
        rows Cases.peoplePage !! idx = Some row /\ payload !! j = Some pk /\
        forall key,
          pk !! key = if bool_decide (key ∈ ["id"])
                      then Some (row !! key) else None.
Proof.
  apply (delete_sends_keys_of_ticked_rows (H := Cases.engine)
           Cases.ticked Fulfilled Cases.listing
           (Sample.schema "users") Cases.peoplePage).
  - reflexivity.
  - reflexivity.
  - vm_compute. discriminate.
  - apply (bool_decide_unpack _). vm_compute. exact I.
Defined.

(** The same delete on the sample page, spelled out: the second and the
    third row are ticked and their two keys are sent. *)
Example delete_ticked_people :
  (deleteSelectedRows (H := Cases.engine)
     Cases.ticked (Failed "no") Cases.listing).1
  = [DeleteRows "shop" "users"
       [ {[ "id" := Some (Sample.num 2) ]};
         {[ "id" := Some (Sample.num 3) ]} ]].
Proof. reflexivity. Qed.

(** X12.  After the delete request is sent.  If it fails, nothing else is
    sent, the message is shown, and the rows stay ticked over the page as
    it was.  If it succeeds, the selection is emptied and the page is
    fetched again at the current page token with no filter on either of
    its requests, whatever the filter inputs hold.  Either way the dialog
    is closed and the loading flag is off at the end. *)
Theorem delete_aftermath `{Engine}
    (env : Full) (settled : Settled) (outcome : Outcome)
    (k t : string) (payload : list KeyObject) (rest : list Sent) :
  (deleteSelectedRows env settled outcome).1
  = DeleteRows k t payload :: rest ->
  let st := (deleteSelectedRows env settled outcome).2 in
  loading (app st) = false /\ showDeleteConfirm st = false /\
  match settled with
  | Failed message =>
      rest = [] /\ error (app st) = Some message /\
      selectedRows st = selectedRows env /\
      tableData (app st) = tableData (app env)
  | Fulfilled =>
      selectedRows st = [] /\
      exists r,
        rest = [Fetch r] /\ req_keyspace r = k /\ req_table r = t /\
        params r !! "page_state"
        = Some (match or_null (currentPageState (app env)) with
                | Some token => PStr token
                | None => PUndefined
                end) /\
        params r !! "where_clause" = None /\ countParams r = ∅
  end.
Proof.
  unfold deleteSelectedRows.
  destruct (selectedTable (app env)) as [selected|]; [|discriminate].
  destruct (selectedRows env) as [|i0 sel] eqn:Esel; [discriminate|].
  destruct (deletePayload _ _ _) as [p|]; [|discriminate].
  destruct settled as [|message]; cbn [fst snd]; intros [= <- <- <- <-].
  - split; [reflexivity|]. split; [reflexivity|]. split; [reflexivity|].
    eexists. split; [reflexivity|].
    cbn [refetch fst snd].
    cbn [req_keyspace req_table params countParams buildRequests].
    split; [reflexivity|]. split; [reflexivity|].
    split; [apply NavigationFacts.params_page_state|].
    split; [now rewrite QueryFacts.params_where_clause|].
    reflexivity.
  - repeat split; try reflexivity. exact Esel.
Qed.

Lemma delete_aftermath_witness :
  let env := setApp (Sample.withFilter "name" "=" "ann" (app Cases.ticked))
               Cases.ticked in
  let sent := deleteSelectedRows (H := Cases.engine)
                env Fulfilled Cases.listing in
  loading (app sent.2) = false /\ showDeleteConfirm sent.2 = false /\
  selectedRows sent.2 = [] /\
  exists r,
    [Fetch (buildRequests (app env) "shop" "users" None false)] = [Fetch r]
    /\ req_keyspace r = "shop" /\ req_table r = "users" /\
    params r !! "page_state" = Some PUndefined /\
    params r !! "where_clause" = None /\ countParams r = ∅.
Proof.
  intros env sent.
  apply (delete_aftermath (H := Cases.engine) env Fulfilled Cases.listing
           "shop" "users"
           [ {[ "id" := Some (Sample.num 2) ]};
             {[ "id" := Some (Sample.num 3) ]} ]
           [Fetch (buildRequests (app env) "shop" "users" None false)]).
  reflexivity.
Defined.

(** The delete takes the row at the ticked index of the page as the
    server sent it, while the check boxes are drawn over the sorted page:
    with the sample page sorted by name, a tick on the first row on
    display, that of ann, sends the key of dee. *)
Example delete_under_sort_takes_page_order :
  let env :=
    toggleRowSelection
      (quiet (fun st => handleColumnSort st "name") Cases.opened).2 0 in
  (getSortedTableData (H := Sample.runtime) (app env) !! 0%nat)
    ≫= (.!! "name") = Some (JStr "ann") /\
  (deleteSelectedRows (H := Cases.engine) env (Failed "no") Cases.listing).1
  = [DeleteRows "shop" "users" [ {[ "id" := Some (Sample.num 1) ]} ]].
Proof. split; reflexivity. Qed.

(** X13.  What a save sends.  A PUT leaves only for an edit form opened
    on a row; it names the open table, its key object holds exactly the
    partition and clustering key columns with the values of the row as
    it was when the form was opened, and its updates are never empty:
    they are the fields of the form that are no key column and whose
    value is not strictly equal to that of the row. *)
Theorem save_sends_only_changed_fields `{Engine}
    (env : Full) (settled : Settled) (outcome : Outcome)
    (k t : string) (pk : KeyObject) (updates : TableRow)
    (rest : list Sent) :
  (saveEditRow env settled outcome).1 = PutRow k t pk updates :: rest ->
  exists selected index row,
    selectedTable (app env) = Some selected /\
    editingRow env = Some (index, Some row) /\
    k = keyspace selected /\ t = table selected /\
    (forall key,
       pk !! key = if bool_decide (key ∈ primaryKeys selected)
                   then Some (row !! key) else None) /\
    updates <> ∅ /\
    (forall field v,
       (updates !! field = Some v) <->
       (editFormData env !! field = Some v /\
        (field ∉ primaryKeys selected) /\
        strictEquals (Some v) (row !! field) = false)).
Proof.
  unfold saveEditRow.
  destruct (selectedTable (app env)) as [selected|]; [|discriminate].
  destruct (editingRow env) as [[index [row|]]|]; [| |discriminate].
  - destruct (keyObject_is_Some (primaryKeys selected) row) as [pk' Hpk].
    rewrite Hpk. cbn [buildUpdates].
    destruct (Nat.eqb_spec
                (size (filter
                         (fun field =>
                            changed (primaryKeys selected) row field = true)
                         (editFormData env))) 0) as [E|E];
      [discriminate|].
    intros Hsent.
    assert (Hhead : PutRow (keyspace selected) (table selected) pk'
                      (filter
                         (fun field =>
                            changed (primaryKeys selected) row field = true)
                         (editFormData env))
                    = PutRow k t pk updates)
      by (destruct settled; cbn in Hsent; congruence).
    injection Hhead as <- <- <- <-.
    exists selected, index, row.
    do 4 (split; [reflexivity|]).
    split; [intros key; now apply keyObject_lookup|].
    split; [now rewrite <- map_size_empty_iff|].
    intros field v. rewrite map_lookup_filter_Some. unfold changed.
    cbn [fst snd]. rewrite andb_true_iff, !negb_true_iff.
    rewrite bool_decide_eq_false. tauto.
  - destruct (keyObject _ None); [|discriminate].
    cbn [buildUpdates]. case_bool_decide; discriminate.
Qed.

Lemma save_sends_only_changed_fields_witness :
  exists selected index row,
    selectedTable (app Cases.editing) = Some selected /\
    editingRow Cases.editing = Some (index, Some row) /\
    "shop" = keyspace selected /\ "users" = table selected /\
    (forall key,
       ({[ "id" := Some (Sample.num 2) ]} : KeyObject) !! key
       = if bool_decide (key ∈ primaryKeys selected)
         then Some (row !! key) else None) /\
    ({[ "score" := JStr "10" ]} : TableRow) <> ∅ /\
    (forall field v,
       (({[ "score" := JStr "10" ]} : TableRow) !! field = Some v) <->
       (editFormData Cases.editing !! field = Some v /\
        (field ∉ primaryKeys selected) /\
        Cases.sameValue (Some v) (row !! field) = false)).
Proof.
  apply (save_sends_only_changed_fields (H := Cases.engine)
           Cases.editing (Failed "no") Cases.listing "shop" "users"
           {[ "id" := Some (Sample.num 2) ]} {[ "score" := JStr "10" ]} []).
  reflexivity.
Defined.

(** X14.  After the PUT is sent.  If it fails, nothing else is sent, the
    message is shown and the form stays open with what was typed.  If it
    succeeds, the form is closed and emptied, the selection is emptied,
    and the page is fetched again at the current page token with no
    filter on either of its requests.  Either way the loading flag is
    off at the end. *)
Theorem save_aftermath `{Engine}
    (env : Full) (settled : Settled) (outcome : Outcome)
    (k t : string) (pk : KeyObject) (updates : TableRow)
    (rest : list Sent) :
  (saveEditRow env settled outcome).1 = PutRow k t pk updates :: rest ->
  let st := (saveEditRow env settled outcome).2 in
  loading (app st) = false /\
  match settled with
  | Failed message =>
      rest = [] /\ error (app st) = Some message /\
      editingRow st = editingRow env /\
      editFormData st = editFormData env /\
      selectedRows st = selectedRows env
  | Fulfilled =>
      editingRow st = None /\ editFormData st = ∅ /\
      selectedRows st = [] /\
      exists r,
        rest = [Fetch r] /\ req_keyspace r = k /\ req_table r = t /\
        params r !! "page_state"
        = Some (match or_null (currentPageState (app env)) with
                | Some token => PStr token
                | None => PUndefined
                end) /\
        params r !! "where_clause" = None /\ countParams r = ∅
  end.
Proof.
  unfold saveEditRow.
  destruct (selectedTable (app env)) as [selected|]; [|discriminate].
  destruct (editingRow env) as [[index data]|] eqn:Eedit; [|discriminate].
  destruct (keyObject _ data) as [pk'|]; [|discriminate].
  destruct (buildUpdates _ _ data) as [updates'|]; [|discriminate].
  destruct (size updates' =? 0)%nat; [discriminate|].
  destruct settled as [|message]; cbn [fst snd]; intros [= <- <- <- <- <-].
  - split; [reflexivity|]. do 3 (split; [reflexivity|]).
    eexists. split; [reflexivity|].
    cbn [refetch fst snd].
    cbn [req_keyspace req_table params countParams buildRequests].
    split; [reflexivity|]. split; [reflexivity|].
    split; [apply NavigationFacts.params_page_state|].
    split; [now rewrite QueryFacts.params_where_clause|].
    reflexivity.
  - repeat split; try reflexivity. exact Eedit.
Qed.

Lemma save_aftermath_witness :
  let sent := saveEditRow (H := Cases.engine)
                Cases.editing (Failed "no") Cases.listing in
  loading (app sent.2) = false /\
  @nil Sent = [] /\ error (app sent.2) = Some "no" /\
  editingRow sent.2 = editingRow Cases.editing /\
  editFormData sent.2 = editFormData Cases.editing /\
  selectedRows sent.2 = selectedRows Cases.editing.
Proof.
  intros sent.
  apply (save_aftermath (H := Cases.engine)
           Cases.editing (Failed "no") Cases.listing "shop" "users"
           {[ "id" := Some (Sample.num 2) ]} {[ "score" := JStr "10" ]} []).
  reflexivity.
Defined.

(** A field that still holds the value of the row is not sent. *)
Lemma unchanged_field_dropped `{Engine}
    (keys : list string) (row : TableRow) (field : string) (v : JSValue) :
  row !! field = Some v ->
  strictEquals (Some v) (Some v) = true ->
  changed keys row (field, v) = false.
Proof.
  intros Hrow Hrefl. unfold changed. cbn [fst snd].
  rewrite Hrow, Hrefl. apply andb_false_r.
Qed.

(** What the form sends when one field was typed into. *)
Lemma updates_after_one_edit `{Engine}
    (keys : list string) (row : TableRow) (field value : string) :
  map_Forall (fun _ v => strictEquals (Some v) (Some v) = true) row ->
  filter (fun f => changed keys row f = true) (<[field := JStr value]> row)
  = if bool_decide (field ∈ keys)
       || strictEquals (Some (JStr value)) (row !! field)
    then ∅ else {[ field := JStr value ]}.
Proof.
  intros Hrefl. apply map_eq. intros i. apply option_eq. intros v.
  rewrite map_lookup_filter_Some, lookup_insert_Some.
  destruct (bool_decide (field ∈ keys)
            || strictEquals (Some (JStr value)) (row !! field)) eqn:E.
  - rewrite lookup_empty. split; [|discriminate].
    intros [[[<- <-]|[Hne Hrow]] Hch].
    + unfold changed in Hch. cbn [fst snd] in Hch.
      apply andb_true_iff in Hch as [H1 H2].
      apply negb_true_iff in H1, H2. now rewrite H1, H2 in E.
    + now rewrite (unchanged_field_dropped _ _ _ _ Hrow (Hrefl _ _ Hrow))
        in Hch.
  - rewrite lookup_singleton_Some. apply orb_false_iff in E as [E1 E2].
    split.
    + intros [[[<- <-]|[Hne Hrow]] Hch]; [now split|].
      now rewrite (unchanged_field_dropped _ _ _ _ Hrow (Hrefl _ _ Hrow))
        in Hch.
    + intros [<- <-]. split; [now left|].
      unfold changed. cbn [fst snd]. now rewrite E1, E2.
Qed.

(** X15.  A form that is opened on a row on display and saved as it is
    sends nothing: the message "No changes detected" is shown and the form
    stays open.  The values of the row are taken to be strictly equal to
    themselves, as every value of a JSON body is. *)
Theorem unedited_save_sends_nothing `{Runtime} `{Engine}
    (env : Full) (index : nat) (row : TableRow)
    (settled : Settled) (outcome : Outcome) :
  selectedTable (app env) <> None ->
  getSortedTableData (app env) !! index = Some row ->
  map_Forall (fun _ v => strictEquals (Some v) (Some v) = true) row ->
  let sent := saveEditRow (startEditRow env index) settled outcome in
  sent.1 = [] /\ error (app sent.2) = Some "No changes detected" /\
  loading (app sent.2) = false /\
  editingRow sent.2 = Some (index, Some row) /\ editFormData sent.2 = row.
Proof.
  intros Hsel Hrow Hrefl sent. subst sent.
  unfold saveEditRow, startEditRow.
  cbn [app editingRow editFormData setEditFormData setEditingRow].
  destruct (selectedTable (app env)) as [selected|]; [|congruence].
  rewrite Hrow. cbn [default from_option id].
  destruct (keyObject_is_Some (primaryKeys selected) row) as [pk ->].
  cbn [buildUpdates].
  assert (E : filter (fun f => changed (primaryKeys selected) row f = true)
                row = ∅).
  { apply map_empty_filter. intros field v Hv. cbn.
    now rewrite (unchanged_field_dropped _ _ _ _ Hv (Hrefl _ _ Hv)). }
  rewrite E, map_size_empty. repeat split; reflexivity.
Qed.

Lemma unedited_save_sends_nothing_witness :
  let sent := saveEditRow (H := Cases.engine)
                (startEditRow (H := Sample.runtime) Cases.opened 1)
                Fulfilled Cases.listing in
  sent.1 = [] /\ error (app sent.2) = Some "No changes detected" /\
  loading (app sent.2) = false /\
  editingRow sent.2 = Some (1%nat, Some (Cases.person 2 "ann" 9)) /\
  editFormData sent.2 = Cases.person 2 "ann" 9.
Proof.
  apply (unedited_save_sends_nothing (H := Sample.runtime)
           (H0 := Cases.engine) Cases.opened 1 (Cases.person 2 "ann" 9)
           Fulfilled Cases.listing).
  - discriminate.
  - reflexivity.
  - apply (bool_decide_unpack _). vm_compute. exact I.
Defined.

(** X16.  A form that is opened on a row on display, typed into in one
    field and saved.  If the field is a key column, or the text typed is
    strictly equal to what the row holds there, nothing is sent and "No
    changes detected" is shown.  Otherwise one PUT leaves whose updates
    hold that field alone, with the text as typed. *)
Theorem one_edit_sends_one_field `{Runtime} `{Engine}
    (env : Full) (index : nat) (row : TableRow) (field value : string)
    (settled : Settled) (outcome : Outcome) (selected : TableSchema) :
  selectedTable (app env) = Some selected ->
  getSortedTableData (app env) !! index = Some row ->
  map_Forall (fun _ v => strictEquals (Some v) (Some v) = true) row ->
  let sent :=
    saveEditRow (updateEditFormField (startEditRow env index) field value)
      settled outcome in
  if bool_decide (field ∈ primaryKeys selected)
     || strictEquals (Some (JStr value)) (row !! field)
  then sent.1 = [] /\ error (app sent.2) = Some "No changes detected"
  else exists pk,
         head sent.1
         = Some (PutRow (keyspace selected) (table selected) pk
                   {[ field := JStr value ]}).
Proof.
  intros Hsel Hrow Hrefl sent. subst sent.
  unfold saveEditRow, updateEditFormField, startEditRow.
  cbn [app editingRow editFormData setEditFormData setEditingRow].
  rewrite Hsel, Hrow. cbn [default from_option id].
  destruct (keyObject_is_Some (primaryKeys selected) row) as [pk ->].
  cbn [buildUpdates]. rewrite (updates_after_one_edit _ _ _ _ Hrefl).
  destruct (bool_decide (field ∈ primaryKeys selected)
            || strictEquals (Some (JStr value)) (row !! field)).
  - rewrite map_size_empty. now split.
  - rewrite map_size_singleton. exists pk. now destruct settled.
Qed.

Lemma one_edit_sends_one_field_witness :
  let sent := saveEditRow (H := Cases.engine) Cases.editing
                (Failed "no") Cases.listing in
  exists pk,
    head sent.1
    = Some (PutRow "shop" "users" pk {[ "score" := JStr "10" ]}).
Proof.
  apply (one_edit_sends_one_field (H := Sample.runtime) (H0 := Cases.engine)
           (quiet (fun st => handleColumnSort st "name") Cases.opened).2
           0 (Cases.person 2 "ann" 9) "score" "10" (Failed "no")
           Cases.listing (Sample.schema "users")).
  - reflexivity.
  - reflexivity.
  - apply (bool_decide_unpack _). vm_compute. exact I.
Defined.

End EditorFacts.


(** ** The states the component can reach *)

Module ReachFacts.
Import JsString Js Http App Editor Reach.

(** What a fetch leaves of the state it writes to. *)
Lemma fetch_fields env k t ps af o st :
  let st' := (fetchTableData env k t ps af o st).2 in
  queryLimit st' = queryLimit st /\ pageSize st' = pageSize st /\
  loading st' = false /\
  (currentPageState st' = ps \/ currentPageState st' = currentPageState st).
Proof.
  unfold fetchTableData. destruct o as [r|message]; cbn [snd].
  - destruct (negb (truthy_opt ps) && negb af); cbn; auto.
  - cbn. auto.
Qed.

Lemma fetch_steady env k t ps af o st :
  plainToken ps -> plainToken (currentPageState st) ->
  1 <= queryLimit st ->
  (pageSize st = 20 \/ pageSize st = 50 \/ pageSize st = 100) ->
  steady (fetchTableData env k t ps af o st).2.
Proof.
  intros Hps Hcur Hlim Hsize. unfold steady.
  pose proof (fetch_fields env k t ps af o st) as F. cbv zeta in F.
  destruct F as (-> & -> & -> & [-> | ->]); repeat split; assumption.
Qed.

Lemma truthy_plain (o : option string) :
  truthy_opt o = true -> plainToken o.
Proof. now destruct o as [[|c s]|]. Qed.

Lemma or_null_plain (o : option string) : plainToken (or_null o).
Proof. now destruct o as [[|c s]|]. Qed.

(** Each handler that fetches keeps the explorer state steady, and leaves
    the page alone when it sends nothing. *)
Lemma tableClick_steady env k t o :
  steady env ->
  steady (onTableClick env k t o).2 /\
  ((onTableClick env k t o).1 = [] ->
   tableData (onTableClick env k t o).2 = tableData env).
Proof.
  intros (Hcur & Hlim & Hsize & _). unfold onTableClick, fetched.
  cbn [fst snd]. split; [|discriminate].
  now apply fetch_steady.
Qed.

Lemma nextPage_steady env o :
  steady env ->
  steady (handleNextPage env o).2 /\
  ((handleNextPage env o).1 = [] ->
   tableData (handleNextPage env o).2 = tableData env).
Proof.
  intros Hs. pose proof Hs as (Hcur & Hlim & Hsize & _).
  unfold handleNextPage, fetched.
  destruct (tableData env) as [data|] eqn:Ed; [|now split].
  destruct (selectedTable env) as [selected|]; [|now split].
  destruct (truthy_opt (next_page_state data)) eqn:Et; [|now split].
  cbn [fst snd]. split; [|discriminate].
  apply fetch_steady; try assumption. now apply truthy_plain.
Qed.

Lemma previousPage_steady env o :
  steady env ->
  steady (handlePreviousPage env o).2 /\
  ((handlePreviousPage env o).1 = [] ->
   tableData (handlePreviousPage env o).2 = tableData env).
Proof.
  intros Hs. pose proof Hs as (Hcur & Hlim & Hsize & _).
  unfold handlePreviousPage, fetched.
  destruct (pageHistory env) as [|h hs]; [now split|].
  destruct (selectedTable env) as [selected|]; [|now split].
  cbn [fst snd]. split; [|discriminate].
  apply fetch_steady; try assumption. apply or_null_plain.
Qed.

Lemma pageSizeChange_steady env newSize o :
  steady env ->
  newSize = 20 \/ newSize = 50 \/ newSize = 100 ->
  steady (handlePageSizeChange env newSize o).2 /\
  ((handlePageSizeChange env newSize o).1 = [] ->
   tableData (handlePageSizeChange env newSize o).2 = tableData env).
Proof.
  intros (Hcur & Hlim & Hsize & Hload) Hnew.
  unfold handlePageSizeChange, fetched.
  destruct (selectedTable env) as [selected|]; cbn [fst snd].
  - split; [|discriminate]. apply fetch_steady; try assumption. exact I.
  - split; [|reflexivity]. repeat split; assumption.
Qed.

Lemma applyFilters_steady env o :
  steady env ->
  steady (applyServerSideFilters env o).2 /\
  ((applyServerSideFilters env o).1 = [] ->
   tableData (applyServerSideFilters env o).2 = tableData env).
Proof.
  intros Hs. pose proof Hs as (Hcur & Hlim & Hsize & _).
  unfold applyServerSideFilters, fetched.
  destruct (selectedTable env) as [selected|]; [|now split].
  cbn [fst snd]. split; [|discriminate].
  apply fetch_steady; try assumption. exact I.
Qed.

Lemma clearFilters_steady env o :
  steady env ->
  steady (clearServerSideFilters env o).2 /\
  ((clearServerSideFilters env o).1 = [] ->
   tableData (clearServerSideFilters env o).2 = tableData env).
Proof.
  intros (Hcur & Hlim & Hsize & Hload).
  unfold clearServerSideFilters, fetched.
  destruct (selectedTable env) as [selected|]; cbn [fst snd].
  - split; [|discriminate]. apply fetch_steady; try assumption. exact I.
  - split; [|reflexivity]. repeat split; assumption.
Qed.

Lemma invariant_steady env : invariant env -> steady (app env).
Proof. intros []. repeat split; assumption. Qed.

(** A handler that keeps the explorer state steady keeps the invariant
    once its fetches have emptied the selection. *)
Lemma lift_invariant (handler : State -> Step) (env : Full) :
  invariant env ->
  steady (handler (app env)).2 ->
  ((handler (app env)).1 = [] ->
   tableData (handler (app env)).2 = tableData (app env)) ->
  invariant (lift handler env).2.
Proof.
  intros Hinv (Hcur & Hlim & Hsize & Hload) Hquiet. unfold lift.
  destruct (handler (app env)) as [sent st] eqn:E. cbn [fst snd] in *.
  destruct sent as [|r sent].
  - destruct Hinv. constructor; cbn [app selectedRows setApp]; try assumption.
    unfold rowsShown. cbn [app setApp]. now rewrite Hquiet.
  - constructor; cbn [app selectedRows setApp setSelectedRows];
      try assumption; constructor.
Qed.

(** A change of the explorer state that leaves the page alone. *)
Lemma quiet_invariant (f : State -> State) (env : Full) :
  invariant env ->
  steady (f (app env)) ->
  tableData (f (app env)) = tableData (app env) ->
  invariant (quiet f env).2.
Proof.
  intros Hinv (Hcur & Hlim & Hsize & Hload) Hdata. unfold quiet.
  destruct Hinv. constructor; cbn [snd app selectedRows setApp];
    try assumption.
  unfold rowsShown. cbn [app setApp]. now rewrite Hdata.
Qed.

(** A change that touches neither the explorer state nor the
    selection. *)
Lemma aside_invariant (env env' : Full) :
  invariant env ->
  steady (app env') ->
  tableData (app env') = tableData (app env) ->
  selectedRows env' = selectedRows env ->
  invariant env'.
Proof.
  intros Hinv (Hcur & Hlim & Hsize & Hload) Hdata Hsel.
  destruct Hinv. constructor; try assumption; rewrite Hsel; try assumption.
  unfold rowsShown. now rewrite Hdata.
Qed.

(** The refresh after a delete or a save. *)
Lemma refetch_invariant (env st : Full) k t o :
  invariant env ->
  plainToken (currentPageState (app st)) ->
  1 <= queryLimit (app st) ->
  (pageSize (app st) = 20 \/ pageSize (app st) = 50
   \/ pageSize (app st) = 100) ->
  let r := refetch env k t (currentPageState (app env)) false o st in
  invariant (setApp (setLoading false (app r.2)) r.2).
Proof.
  intros Hinv Hcur Hlim Hsize r. subst r. unfold refetch.
  cbn [fst snd app setApp setSelectedRows selectedRows].
  assert (Hs : steady
                 (fetchTableData (app env) k t (currentPageState (app env))
                    false o (app st)).2).
  { apply fetch_steady; try assumption. now destruct Hinv. }
  destruct Hs as (H1 & H2 & H3 & H4).
  constructor; cbn [app setApp selectedRows]; try assumption;
    try constructor; try reflexivity.
Qed.

Lemma start_invariant : invariant start.
Proof.
  constructor; cbn; try constructor; auto; lia.
Qed.

Lemma handle_invariant `{Runtime} `{Engine} (ev : Event) (env : Full) :
  invariant env -> offered env ev -> invariant (handle ev env).2.
Proof.
  intros Hinv Hoff. pose proof (invariant_steady env Hinv) as Hs.
  pose proof Hs as (Hcur & Hlim & Hsize & Hload).
  destruct ev; cbn [handle offered] in *.
  - apply lift_invariant; try assumption; now apply tableClick_steady.
  - apply lift_invariant; try assumption; now apply nextPage_steady.
  - apply lift_invariant; try assumption; now apply previousPage_steady.
  - apply lift_invariant; try assumption; now apply pageSizeChange_steady.
  - apply lift_invariant; try assumption; now apply applyFilters_steady.
  - apply lift_invariant; try assumption; now apply clearFilters_steady.
  - apply quiet_invariant; [assumption| |reflexivity]. exact Hs.
  - apply quiet_invariant; [assumption| |reflexivity]. exact Hs.
  - apply quiet_invariant; [assumption| |reflexivity]. exact Hs.
  - apply quiet_invariant; [assumption| |reflexivity].
    repeat split; try assumption. cbn. lia.
  - apply quiet_invariant; [assumption| |].
    + unfold handleColumnSort.
      destruct (String.eqb (sortColumn (app env)) columnName); exact Hs.
    + unfold handleColumnSort.
      now destruct (String.eqb (sortColumn (app env)) columnName).
  - cbn [snd]. unfold toggleRowSelection.
    destruct Hinv. constructor; cbn [app selectedRows setSelectedRows];
      try assumption.
    + case_bool_decide.
      * now apply EditorFacts.NoDup_filter_other.
      * apply NoDup_app. repeat split; [assumption| |apply NoDup_singleton].
        intros x Hx Hx'. apply list_elem_of_singleton in Hx'. now subst.
    + case_bool_decide.
      * apply Forall_forall. intros i Hi.
        apply EditorFacts.elem_of_filter_other in Hi as [Hi _].
        rewrite Forall_forall in inv_range0. now apply inv_range0.
      * apply Forall_app. split; [assumption|]. now constructor.
  - cbn [snd]. unfold toggleSelectAll, rowsShown in *.
    destruct Hinv.
    destruct (tableData (app env)) as [data|] eqn:Ed.
    + destruct (_ =? _)%nat; constructor;
        cbn [app selectedRows setSelectedRows]; try assumption;
        try constructor; unfold rowsShown;
        cbn [app setSelectedRows]; rewrite ?Ed.
      * apply NoDup_seq.
      * apply Forall_forall. intros i Hi. apply elem_of_seq in Hi. lia.
    + constructor; cbn [app selectedRows setSelectedRows]; try assumption;
        constructor.
  - now apply aside_invariant with env.
  - now apply aside_invariant with env.
  - cbn [snd]. unfold deleteSelectedRows.
    destruct (selectedTable (app env)) as [selected|]; [|assumption].
    destruct (selectedRows env) as [|i0 sel] eqn:Esel; [assumption|].
    destruct (deletePayload _ _ _) as [payload|].
    + destruct settled as [|message]; cbn [snd].
      * now apply refetch_invariant.
      * apply aside_invariant with env; try assumption; try reflexivity.
        repeat split; assumption.
    + cbn [snd]. apply aside_invariant with env; try assumption;
        try reflexivity.
      repeat split; assumption.
  - now apply aside_invariant with env.
  - now apply aside_invariant with env.
  - now apply aside_invariant with env.
  - cbn [snd]. unfold saveEditRow.
    destruct (selectedTable (app env)) as [selected|]; [|assumption].
    destruct (editingRow env) as [[index data]|]; [|assumption].
    assert (Hcaught : forall message,
              invariant
                (caught message
                   (setApp (setError None (setLoading true (app env)))
                      env))).
    { intros message. apply aside_invariant with env; try assumption;
        try reflexivity.
      repeat split; assumption. }
    destruct (keyObject _ data) as [pk|]; [|apply Hcaught].
    destruct (buildUpdates _ _ data) as [updates|]; [|apply Hcaught].
    destruct (size updates =? 0)%nat; [apply Hcaught|].
    destruct settled as [|message]; cbn [snd]; [|apply Hcaught].
    now apply refetch_invariant.
Qed.

Lemma reachable_is_invariant `{Runtime} `{Engine} (env : Full) :
  reachable env -> invariant env.
Proof.
  induction 1 as [|env ev _ IH Hoff]; [apply start_invariant|].
  now apply handle_invariant.
Qed.

(** The sorted page has the rows of the page. *)
Lemma sorted_page_length `{Runtime} (st : State) :
  length (getSortedTableData st)
  = match tableData st with
    | Some data => length (rows data)
    | None => 0%nat
    end.
Proof.
  unfold getSortedTableData. destruct (tableData st) as [data|]; [|easy].
  destruct (negb (truthy (sortColumn st))); [easy|].
  now rewrite SortFacts.sort_perm.
Qed.

Lemma lift_editingRow (handler : State -> Step) (env : Full) :
  editingRow (lift handler env).2 = editingRow env.
Proof. unfold lift. now destruct (handler (app env)).1. Qed.

Lemma handle_formOnRow `{Runtime} `{Engine} (ev : Event) (env : Full) :
  formOnRow env -> offered env ev -> formOnRow (handle ev env).2.
Proof.
  intros Hform Hoff index data.
  destruct ev; cbn [handle snd offered] in *;
    rewrite ?lift_editingRow; try apply Hform.
  - unfold toggleSelectAll.
    destruct (tableData (app env)); [destruct (_ =? _)%nat|]; apply Hform.
  - unfold deleteSelectedRows.
    destruct (selectedTable (app env)); [|apply Hform].
    destruct (selectedRows env); [apply Hform|].
    destruct (deletePayload _ _ _); [destruct settled|]; apply Hform.
  - unfold startEditRow. cbn [editingRow setEditFormData setEditingRow].
    intros [= <- <-]. apply lookup_lt_is_Some_2.
    rewrite sorted_page_length. exact Hoff.
  - discriminate.
  - unfold saveEditRow.
    destruct (selectedTable (app env)); [|apply Hform].
    destruct (editingRow env) as [[i d]|] eqn:E; [|apply Hform].
    destruct (keyObject _ d);
      [destruct (buildUpdates _ _ d);
       [destruct (_ =? _)%nat; [|destruct settled]|]|];
      cbn; try discriminate; intros E'; apply (Hform index data);
      congruence.
Qed.

Lemma reachable_formOnRow `{Runtime} `{Engine} (env : Full) :
  reachable env -> formOnRow env.
Proof.
  induction 1 as [|env ev _ IH Hoff]; [discriminate|].
  now apply handle_formOnRow.
Qed.

(** Every fetch of a handler is built from the state of the render that
    the handler belongs to. *)
Lemma fetched_built env k t ps af o st (r : Requests) :
  r ∈ (fetched (fetchTableData env k t ps af o st)).1 ->
  exists k t ps af, r = buildRequests env k t ps af.
Proof.
  cbn [fetched fst]. rewrite list_elem_of_singleton. intros ->. eauto.
Qed.

Ltac built_or_none :=
  repeat case_match;
  first [ apply fetched_built
        | cbn [fst]; rewrite elem_of_nil; contradiction ].

Lemma lift_fetches (handler : State -> Step) (env : Full) (r : Requests) :
  (forall r, r ∈ (handler (app env)).1 ->
             exists k t ps af, r = buildRequests (app env) k t ps af) ->
  Fetch r ∈ (lift handler env).1 ->
  exists k t ps af, r = buildRequests (app env) k t ps af.
Proof.
  intros Hbuilt. unfold lift. cbn [fst]. rewrite list_elem_of_fmap.
  intros (r' & [= ->] & Hin). now apply Hbuilt.
Qed.

Lemma refetch_fetches env k t ps af o st (r : Requests) (first : Sent) :
  (forall r', first <> Fetch r') ->
  Fetch r ∈ first :: (refetch env k t ps af o st).1 ->
  exists k t ps af, r = buildRequests (app env) k t ps af.
Proof.
  intros Hfirst. cbn [refetch fst].
  rewrite elem_of_cons, list_elem_of_singleton.
  intros [E|[= ->]]; [now destruct (Hfirst r)|eauto].
Qed.

Lemma handle_fetches `{Runtime} `{Engine} (ev : Event) (env : Full)
    (r : Requests) :
  Fetch r ∈ (handle ev env).1 ->
  exists k t ps af, r = buildRequests (app env) k t ps af.
Proof.
  destruct ev; cbn [handle];
    try (cbn [fst quiet]; rewrite elem_of_nil; contradiction);
    try (apply lift_fetches; intros r'; cbv beta).
  - apply fetched_built.
  - unfold handleNextPage. built_or_none.
  - unfold handlePreviousPage. built_or_none.
  - unfold handlePageSizeChange. built_or_none.
  - unfold applyServerSideFilters. built_or_none.
  - unfold clearServerSideFilters. built_or_none.
  - unfold deleteSelectedRows. repeat case_match; cbn [fst];
      rewrite ?elem_of_nil, ?list_elem_of_singleton;
      try contradiction; try discriminate.
    now apply refetch_fetches.
  - unfold saveEditRow. repeat case_match; cbn [fst];
      rewrite ?elem_of_nil, ?list_elem_of_singleton;
      try contradiction; try discriminate.
    now apply refetch_fetches.
Qed.

(** X17.  Between two actions of the user, whatever the actions and the
    answers of the server were: nothing is loading, the page size is one
    of the three of the select, the limit is at least 1, the page token is
    [null] or a non-empty string, no row is ticked twice, every ticked
    index is that of a row on display, and an open edit form is open on a
    row. *)
Theorem reachable_state_is_sound `{Runtime} `{Engine} (env : Full) :
  reachable env ->
  loading (app env) = false /\
  (pageSize (app env) = 20 \/ pageSize (app env) = 50
   \/ pageSize (app env) = 100) /\
  1 <= queryLimit (app env) /\
  plainToken (currentPageState (app env)) /\
  NoDup (selectedRows env) /\
  Forall (fun i => (i < rowsShown env)%nat) (selectedRows env) /\
  (forall index data, editingRow env = Some (index, data) -> is_Some data).
Proof.
  intros Hreach.
  destruct (reachable_is_invariant env Hreach).
  pose proof (reachable_formOnRow env Hreach) as Hform.
  repeat split; assumption.
Qed.

Lemma reachable_state_is_sound_witness :
  loading (app Cases.ticked) = false /\
  (pageSize (app Cases.ticked) = 20 \/ pageSize (app Cases.ticked) = 50
   \/ pageSize (app Cases.ticked) = 100) /\
  1 <= queryLimit (app Cases.ticked) /\
  plainToken (currentPageState (app Cases.ticked)) /\
  NoDup (selectedRows Cases.ticked) /\
  Forall (fun i => (i < rowsShown Cases.ticked)%nat)
    (selectedRows Cases.ticked) /\
  (forall index data,
     editingRow Cases.ticked = Some (index, data) -> is_Some data).
Proof.
  apply (reachable_state_is_sound (H := Sample.runtime)
           (H0 := Cases.engine) Cases.ticked).
  unfold Cases.ticked, Cases.opened.
  repeat (apply reach_step; [|vm_compute; try lia; exact I]).
  apply reach_start.
Defined.

(** X18.  Every fetch that an action starts from such a state asks for a
    page of at least 1 and at most 100 rows: the smaller of the page size
    and the limit of the render in which the action was taken. *)
Theorem fetches_ask_for_a_bounded_page `{Runtime} `{Engine}
    (env : Full) (ev : Event) (r : Requests) :
  reachable env ->
  Fetch r ∈ (handle ev env).1 ->
  exists n,
    params r !! "page_size" = Some (PNum n) /\
    n = Z.min (pageSize (app env)) (queryLimit (app env)) /\
    1 <= n <= 100.
Proof.
  intros Hreach Hin.
  destruct (reachable_is_invariant env Hreach).
  destruct (handle_fetches ev env r Hin) as (k & t & ps & af & ->).
  eexists. split; [apply NavigationFacts.params_page_size|].
  split; [reflexivity|]. lia.
Qed.

Lemma fetches_ask_for_a_bounded_page_witness :
  exists n,
    params (buildRequests (app Cases.ticked) "shop" "users" (Some "tokA")
              false)
    !! "page_size" = Some (PNum n) /\
    n = Z.min (pageSize (app Cases.ticked)) (queryLimit (app Cases.ticked))
    /\ 1 <= n <= 100.
Proof.
  apply (fetches_ask_for_a_bounded_page (H := Sample.runtime)
           (H0 := Cases.engine) Cases.ticked (NextPage Cases.listing)).
  - unfold Cases.ticked, Cases.opened.
    repeat (apply reach_step; [|vm_compute; try lia; exact I]).
    apply reach_start.
  - vm_compute. constructor.
Defined.



(** X20.  From such a state, a save never throws either: with a table
    open and the form open, it ends in "No changes detected" with nothing
    sent, or it sends its PUT. *)
Theorem reachable_save_is_sent_or_empty `{Runtime} `{Engine}
    (env : Full) (settled : Settled) (outcome : Outcome)
    (selected : TableSchema) (index : nat) (data : option TableRow) :
  reachable env ->
  selectedTable (app env) = Some selected ->
  editingRow env = Some (index, data) ->
  let sent := saveEditRow env settled outcome in
  (sent.1 = [] /\ error (app sent.2) = Some "No changes detected") \/
  (exists pk updates,
     head sent.1
     = Some (PutRow (keyspace selected) (table selected) pk updates)).
Proof.
  intros Hreach Hsel Hedit sent. subst sent.
  destruct (reachable_formOnRow env Hreach index data Hedit) as [row ->].
  unfold saveEditRow. rewrite Hsel, Hedit.
  destruct (EditorFacts.keyObject_is_Some (primaryKeys selected) row)
    as [pk ->].
  cbn [buildUpdates].
  destruct (_ =? _)%nat; [left; now split|right].
  eexists _, _. now destruct settled.
Qed.

Lemma reachable_save_is_sent_or_empty_witness :
  let env :=
    (handle (H := Sample.runtime) (H0 := Cases.engine)
       (EditField "score" "10")
       (handle (H := Sample.runtime) (H0 := Cases.engine)
          (StartEdit 0) Cases.opened).2).2 in
  let sent := saveEditRow (H := Cases.engine) env Fulfilled Cases.listing in
  (sent.1 = [] /\ error (app sent.2) = Some "No changes detected") \/
  (exists pk updates,
     head sent.1 = Some (PutRow "shop" "users" pk updates)).
Proof.
  intros env.
  apply (reachable_save_is_sent_or_empty (H := Sample.runtime)
           (H0 := Cases.engine) env Fulfilled Cases.listing
           (Sample.schema "users") 0 (Some (Cases.person 1 "dee" 3))).
  - unfold env, Cases.opened.
    repeat (apply reach_step; [|vm_compute; try lia; exact I]).
    apply reach_start.
  - reflexivity.
  - reflexivity.
Defined.

End ReachFacts.


(** ** The keyspace tree *)

Module SidebarFacts.
#[local] Set Warnings "-clear-no-such-hyp".
Import JsString Sidebar.

(** X21.  A click on a keyspace flips whether it is expanded and leaves
    the other keyspaces as they are; a second click restores the set of
    expanded keyspaces; and of the two clicks at most the one that expands
    asks the server for tables. *)
Theorem toggle_twice_restores
    (env : Tree) (keyspace : string) (o1 o2 : Listing) :
  let once := toggleKeyspace env keyspace o1 in
  let twice := toggleKeyspace once.2 keyspace o2 in
  (keyspace ∈ expandedKeyspaces once.2
   <-> keyspace ∉ expandedKeyspaces env) /\
  (forall k, k <> keyspace ->
     k ∈ expandedKeyspaces once.2 <-> k ∈ expandedKeyspaces env) /\
  expandedKeyspaces twice.2 = expandedKeyspaces env /\
  (keyspace ∈ expandedKeyspaces env -> once.1 = []) /\
  (keyspace ∉ expandedKeyspaces env -> twice.1 = []).
Proof.
  intros once twice. subst once twice. unfold toggleKeyspace.
  destruct (decide (keyspace ∈ expandedKeyspaces env)) as [Hin|Hin].
  - rewrite (bool_decide_eq_true_2 _ Hin).
    cbn [fst snd expandedKeyspaces setExpandedKeyspaces tables].
    rewrite bool_decide_eq_false_2 by set_solver.
    destruct (negb (listed (tables env) keyspace));
      cbn [fst snd expandedKeyspaces setExpandedKeyspaces];
      (split; [set_solver|]); (split; [set_solver|]);
      (split; [|tauto]); apply set_eq; intros k;
      destruct (decide (k = keyspace)); set_solver.
  - rewrite (bool_decide_eq_false_2 _ Hin).
    destruct (negb (listed (tables env) keyspace));
      cbn [fst snd expandedKeyspaces setExpandedKeyspaces];
      rewrite bool_decide_eq_true_2 by set_solver;
      cbn [fst snd expandedKeyspaces setExpandedKeyspaces];
      (split; [set_solver|]); (split; [set_solver|]);
      (split; [|tauto]); apply set_eq; intros k;
      destruct (decide (k = keyspace)); set_solver.
Qed.

Lemma toggle_keeps_listing
    (env : Tree) (keyspace k : string) (o : Listing) :
  listed (tables env) k = true ->
  (k ∉ (toggleKeyspace env keyspace o).1) /\
  listed (tables (toggleKeyspace env keyspace o).2) k = true /\
  (forall names, tables env !! k = Some names ->
     tables (toggleKeyspace env keyspace o).2 !! k = Some names).
Proof.
  intros Hk. unfold toggleKeyspace.
  case_bool_decide; [now rewrite elem_of_nil|].
  destruct (listed (tables env) keyspace) eqn:El; cbn [negb fst snd];
    [now rewrite elem_of_nil|].
  rewrite list_elem_of_singleton.
  assert (Hne : k <> keyspace) by congruence.
  split; [exact Hne|].
  destruct o as [names'|message];
    cbn [fetchTables tables setExpandedKeyspaces setTables setError];
    [|now split].
  unfold listed in *. rewrite lookup_insert_ne by congruence. now split.
Qed.

(** X22.  The tables of a keyspace are asked for at most once they are
    there: a keyspace whose tables are loaded, or whose name is one that
    every object inherits, such as "constructor", is never fetched by any
    run of clicks, and a loaded list of tables is never replaced. *)
Theorem listed_keyspace_is_never_fetched
    (clicks : list (string * Listing)) (env : Tree) (k : string) :
  listed (tables env) k = true ->
  (k ∉ (toggles clicks env).1) /\
  listed (tables (toggles clicks env).2) k = true /\
  (forall names, tables env !! k = Some names ->
     tables (toggles clicks env).2 !! k = Some names).
Proof.
  revert env. induction clicks as [|[keyspace o] clicks IH]; intros env Hk.
  - cbn. now rewrite elem_of_nil.
  - destruct (toggle_keeps_listing env keyspace k o Hk) as (H1 & H2 & H3).
    destruct (IH _ H2) as (I1 & I2 & I3).
    cbn [toggles fst snd]. rewrite elem_of_app.
    split; [tauto|]. split; [exact I2|].
    intros names Hn. apply I3, H3, Hn.
Qed.

Lemma listed_keyspace_is_never_fetched_witness :
  let clicks := [("shop", Unlisted "down"); ("shop", Listed ["users"]);
                 ("shop", Listed []); ("constructor", Listed [])] in
  let env := (toggleKeyspace folded "shop" (Listed ["users"; "orders"])).2 in
  ("shop" ∉ (toggles clicks env).1) /\
  listed (tables (toggles clicks env).2) "shop" = true /\
  (forall names, tables env !! "shop" = Some names ->
     tables (toggles clicks env).2 !! "shop" = Some names).
Proof.
  intros clicks env.
  apply (listed_keyspace_is_never_fetched clicks env "shop").
  reflexivity.
Defined.

(** X23.  A listing that fails leaves the keyspace expanded with no
    tables and shows the message; the tables are asked for again by the
    click that expands the keyspace the next time, and by no click that
    collapses it. *)
Theorem failed_listing_is_retried
    (env : Tree) (keyspace message : string) (o2 o3 : Listing) :
  keyspace ∉ expandedKeyspaces env ->
  listed (tables env) keyspace = false ->
  let first := toggleKeyspace env keyspace (Unlisted message) in
  let second := toggleKeyspace first.2 keyspace o2 in
  let third := toggleKeyspace second.2 keyspace o3 in
  first.1 = [keyspace] /\
  keyspace ∈ expandedKeyspaces first.2 /\
  tables first.2 = tables env /\
  error first.2 = Some message /\
  second.1 = [] /\ third.1 = [keyspace].
Proof.
  intros Hin Hl first second third. subst first second third.
  assert (E1 : toggleKeyspace env keyspace (Unlisted message)
               = ([keyspace],
                  setExpandedKeyspaces (expandedKeyspaces env ∪ {[keyspace]})
                    (setError (Some message) env))).
  { unfold toggleKeyspace.
    now rewrite (bool_decide_eq_false_2 _ Hin), Hl. }
  rewrite E1. cbn [fst snd].
  set (st1 := setExpandedKeyspaces _ _).
  assert (E2 : toggleKeyspace st1 keyspace o2
               = ([], setExpandedKeyspaces
                        (expandedKeyspaces st1 ∖ {[keyspace]}) st1)).
  { unfold toggleKeyspace.
    rewrite bool_decide_eq_true_2; [reflexivity|].
    subst st1. cbn. set_solver. }
  rewrite E2. cbn [fst snd].
  split; [reflexivity|]. split; [subst st1; cbn; set_solver|].
  split; [reflexivity|]. split; [reflexivity|].
  split; [reflexivity|].
  unfold toggleKeyspace.
  rewrite bool_decide_eq_false_2 by (subst st1; cbn; set_solver).
  subst st1. cbn [tables setExpandedKeyspaces setError]. now rewrite Hl.
Qed.

Lemma failed_listing_is_retried_witness :
  let first := toggleKeyspace folded "shop" (Unlisted "down") in
  let second := toggleKeyspace first.2 "shop" (Listed ["users"]) in
  let third := toggleKeyspace second.2 "shop" (Listed ["users"]) in
  first.1 = ["shop"] /\
  "shop" ∈ expandedKeyspaces first.2 /\
  tables first.2 = tables folded /\
  error first.2 = Some "down" /\
  second.1 = [] /\ third.1 = ["shop"].
Proof.
  apply (failed_listing_is_retried folded "shop" "down").
  - apply (bool_decide_unpack _). vm_compute. exact I.
  - reflexivity.
Defined.

Lemma prefix_iff (t s : string) :
  String.prefix t s = true <-> exists rest, s = t +:+ rest.
Proof.
  split.
  - revert s. induction t as [|a t IH]; intros s Hp; [now exists s|].
    destruct s as [|b s]; [discriminate|]. cbn in Hp.
    destruct (ascii_dec a b) as [->|]; [|discriminate].
    destruct (IH s Hp) as [rest ->]. now exists rest.
  - intros [rest ->]. apply DisplayFacts.prefix_app.
Qed.

(** X24.  The two lists of the sidebar split the keyspaces: each keyspace
    is drawn once, under "System Keyspaces" when its name starts with
    "system", whatever follows, and above otherwise, in the order the
    server gave; the heading is there exactly when it has a keyspace
    under it. *)
Theorem sidebar_splits_keyspaces (keyspaces : list string) :
  userKeyspaces keyspaces ++ systemKeyspaces keyspaces ≡ₚ keyspaces /\
  userKeyspaces keyspaces `sublist_of` keyspaces /\
  systemKeyspaces keyspaces `sublist_of` keyspaces /\
  (forall k, k ∈ systemKeyspaces keyspaces
             <-> k ∈ keyspaces /\ exists rest, k = "system" +:+ rest) /\
  (forall k, k ∈ userKeyspaces keyspaces
             <-> k ∈ keyspaces /\ ~ exists rest, k = "system" +:+ rest) /\
  (showsSystemHeading keyspaces = true
   <-> exists k rest, k ∈ keyspaces /\ k = "system" +:+ rest).
Proof.
  assert (Hsys : forall k, k ∈ systemKeyspaces keyspaces
                 <-> k ∈ keyspaces /\ exists rest, k = "system" +:+ rest).
  { intros k. unfold systemKeyspaces, isSystem.
    now rewrite list_elem_of_In, List.filter_In, <- list_elem_of_In,
      prefix_iff. }
  split; [|split; [|split; [|split; [exact Hsys|split]]]].
  - unfold userKeyspaces, systemKeyspaces. clear Hsys.
    induction keyspaces as [|k ks IH]; [reflexivity|]. cbn [List.filter].
    destruct (isSystem k); cbn [negb app].
    + now rewrite <- Permutation_middle, IH.
    + now rewrite IH.
  - unfold userKeyspaces. clear Hsys.
    induction keyspaces as [|k ks IH]; [constructor|]. cbn [List.filter].
    destruct (negb (isSystem k)); now constructor.
  - unfold systemKeyspaces. clear Hsys.
    induction keyspaces as [|k ks IH]; [constructor|]. cbn [List.filter].
    destruct (isSystem k); now constructor.
  - intros k. unfold userKeyspaces, isSystem.
    rewrite list_elem_of_In, List.filter_In, <- list_elem_of_In,
      negb_true_iff, <- not_true_iff_false, prefix_iff. tauto.
  - unfold showsSystemHeading. rewrite Nat.ltb_lt.
    split.
    + destruct (systemKeyspaces keyspaces) as [|k l] eqn:E; cbn; [lia|].
      intros _. assert (Hk : k ∈ k :: l) by apply list_elem_of_here.
      apply Hsys in Hk as [Hk [rest ->]]. eauto.
    + intros (k & rest & Hk & ->).
      assert (Hin : ("system" +:+ rest) ∈ systemKeyspaces keyspaces)
        by (apply Hsys; eauto).
      destruct (systemKeyspaces keyspaces); [|cbn; lia].
      now apply elem_of_nil in Hin.
Qed.

End SidebarFacts.

(** ** The session and the saved key *)

Module AuthFacts.
Import JsString Auth.

(** X25.  A login is found again when the page is loaded anew exactly
    when both the token and the user name are non-empty, and then under
    the same user name; the page opens on the dashboard, and the login
    touches no other key of the storage. *)
Theorem login_survives_reload
    (authToken user : string) (st : Session) :
  let now_ := handleLogin authToken user st in
  let back := reload now_ in
  isAuthenticated now_ = true /\ username now_ = user /\
  isAuthenticated back = truthy authToken && truthy user /\
  (isAuthenticated back = true -> username back = user) /\
  view back = dashboard /\
  (forall key, key <> "scylla_auth_token" -> key <> "scylla_username" ->
     localStorage back !! key = localStorage st !! key).
Proof.
  intros now_ back. subst now_ back. unfold reload, onMount, handleLogin.
  cbn [localStorage loaded isAuthenticated username].
  rewrite lookup_insert_eq.
  rewrite lookup_insert_ne by discriminate. rewrite lookup_insert_eq.
  cbn [truthy_opt].
  split; [reflexivity|]. split; [reflexivity|].
  destruct (truthy authToken && truthy user);
    cbn [isAuthenticated username view localStorage loaded default
         from_option];
    (split; [reflexivity|]); (split; [easy|]); (split; [reflexivity|]);
    intros key H1 H2; now rewrite !lookup_insert_ne by congruence.
Qed.

(** X26.  After a logout the session is closed at once and stays closed
    when the page is loaded anew, whatever the storage held: both keys
    of the session are gone and every other key is as it was. *)
Theorem logout_forgets_the_session (st : Session) :
  let out := handleLogout st in
  let back := reload out in
  isAuthenticated out = false /\ username out = "" /\
  view out = dashboard /\
  isAuthenticated back = false /\ username back = "" /\
  localStorage back !! "scylla_auth_token" = None /\
  localStorage back !! "scylla_username" = None /\
  (forall key, key <> "scylla_auth_token" -> key <> "scylla_username" ->
     localStorage back !! key = localStorage st !! key).
Proof.
  intros out back. subst out back. unfold reload, onMount, handleLogout.
  cbn [localStorage loaded isAuthenticated username view].
  rewrite lookup_delete_ne by discriminate. rewrite !lookup_delete_eq.
  cbn [truthy_opt andb isAuthenticated username localStorage loaded].
  do 5 (split; [reflexivity|]).
  split; [now rewrite lookup_delete_ne, lookup_delete_eq by discriminate|].
  split; [now rewrite lookup_delete_eq|].
  intros key H1 H2. now rewrite !lookup_delete_ne by congruence.
Qed.

End AuthFacts.

Module ApiKeyFacts.
Import JsString ApiKey.

(** X27.  The key of the earlier revision.  On a load the key is asked
    for exactly when neither the storage nor the build holds a non-empty
    one, and a saved key is preferred to that of the build.  Once a load
    has found a key, every later load finds the same key without asking,
    whatever the build then holds.  A key typed into the prompt is found
    again in the same way when it is non-empty. *)
Theorem key_is_found_again
    (storage : gmap string string) (envKey later : option string)
    (st : KeyState) :
  let first := onMount envKey (loaded storage) in
  (showApiKeyInput first = true
   <-> or_null (storage !! "scylla_api_key") = None
       /\ or_null envKey = None) /\
  (forall k, or_null (storage !! "scylla_api_key") = Some k ->
     apiKey first = k) /\
  (showApiKeyInput first = false ->
   apiKey (reload later first) = apiKey first /\
   showApiKeyInput (reload later first) = false) /\
  (truthy (apiKey st) = true ->
   apiKey (reload later (handleSetApiKey st)) = apiKey st /\
   showApiKeyInput (reload later (handleSetApiKey st)) = false).
Proof.
  intros first. subst first. unfold reload, onMount, handleSetApiKey.
  cbn [localStorage loaded apiKey showApiKeyInput].
  split; [|split; [|split]].
  - destruct (or_null (storage !! "scylla_api_key")),
      (or_null envKey); cbn; intuition congruence.
  - intros k ->. reflexivity.
  - destruct (or_null (storage !! "scylla_api_key")) as [k|] eqn:Es.
    + cbn [localStorage apiKey showApiKeyInput]. rewrite Es. now split.
    + destruct (or_null envKey) as [k|] eqn:Ee;
        cbn [localStorage apiKey showApiKeyInput]; [|discriminate].
      rewrite lookup_insert_eq.
      assert (Hk : or_null (Some k) = Some k).
      { destruct envKey as [e|]; [|discriminate]. cbn in Ee |- *.
        destruct (truthy e) eqn:Et; [|discriminate].
        injection Ee as <-. now rewrite Et. }
      rewrite Hk. now split.
  - intros Ht. rewrite lookup_insert_eq. cbn [or_null]. rewrite Ht.
    now split.
Qed.

End ApiKeyFacts.

(** ** The earlier revision *)

Module EarlierFacts.
Import JsString Http Earlier.



(** The same press in the revision at hand sends the applied filter
    again, here on the sample page with a filter on the name. *)
Example later_next_page_keeps_filter :
  let env := Sample.withFilter "name" "=" "ann" Sample.firstPage in
  map (fun r => params r !! "where_clause")
    (App.handleNextPage env (Rejected "down")).1
  = [Some (PStr "name = 'ann'")].
Proof. reflexivity. Qed.

End EarlierFacts.
